(** * Arbitrage bot: the settlement contract, the detection and execution
      pipeline, and the two dashboards

    The development follows the repository:
    - [Settlement]: [contracts/ArbritageExecutor.sol], the on-chain
      [ArbitrageExecutor] contract, as a state-and-revert monad over an
      abstract chain;
    - [Detector] and [Orchestrator]: the opportunity detector and the
      execution orchestrator of the off-chain service;
    - [Dashboard]: the WebSocket [onmessage] handlers of [pages/index.js]
      and [frontend/app/page.jsx]. *)

From stdpp Require Import base option list gmap strings fin_maps.
From Stdlib Require Import ZArith.

#[local] Set Warnings "-register-all".
Local Open Scope Z_scope.

(** * The settlement contract *)

Module Settlement.

(** Solidity's [address] (160 bits) and [uint256], both carried by [Z]. *)
Abbreviation address := Z (only parsing).
Abbreviation uint256 := Z (only parsing).
Abbreviation bytes := (list Byte.byte) (only parsing).

(** The two events the contract declares (lines 13-21). *)
Inductive Event : Type :=
| ArbitrageExecuted (token buyDex sellDex : address) (amount profit : uint256)
| FundsWithdrawn (token to : address) (amount : uint256).

(** Why a call frame aborts. [Error] is [require(cond, reason)];
    [OwnableUnauthorizedAccount] is the custom error of the [onlyOwner]
    modifier; [Panic] is a checked-arithmetic failure; [CalleeReverted] is a
    high-level external call whose revert bubbles up. *)
Inductive Failure : Type :=
| OwnableUnauthorizedAccount (account : address)
| Error (reason : string)
| Panic (code : Z)
| CalleeReverted.

(** The external calls a frame performs, in program order. *)
Inductive ExtCall : Type :=
| CallBalanceOf (token account : address)
| CallRaw (target : address) (data : bytes)
| CallTransfer (token to : address) (amount : uint256)
| CallApprove (token spender : address) (amount : uint256).

(** The four [external] functions of the contract (lines 34, 47, 83 and 94),
    as a caller selects them. *)
Inductive Call : Type :=
| SetDexRouterApproval (router : address) (flag : bool)
| ExecuteArbitrage (token buyDex sellDex : address) (buyData sellData : bytes)
    (amount : uint256)
| WithdrawFunds (token to : address) (amount : uint256)
| ApproveToken (token spender : address) (amount : uint256).

(** What a callee does while it has control.  It returns, leaving the rest
    of the chain as [w]; or, the chain being [w], it calls one of the
    contract's functions as [sender] and goes on from whether that call
    succeeded and what the chain is afterwards.  The contract has no
    reentrancy guard: only [onlyOwner] stands between a callee and its
    functions. *)
Inductive Callee (W A : Type) : Type :=
| Return (result : A) (w : W)
| CallBack (sender : address) (c : Call) (w : W) (k : bool → W → Callee W A).
Arguments Return {W A}.
Arguments CallBack {W A}.

(** The rest of the chain, as the contract sees it: the [IERC20] interface
    (line 4) and the low-level [call].  [balanceOf] is a view: it answers or
    reverts ([None]) and changes nothing.  The other calls hand control to
    the callee; a high-level call answers [None] when the callee reverts (or
    its return data does not decode), the low-level [call] reports success
    as a boolean.  Every operation is told who calls it. *)
Class Chain (W : Type) : Type := {
  erc20_balanceOf : W → address → address → option uint256;
  erc20_transfer : W → address → address → address → uint256
                   → Callee W (option bool);
  erc20_approve : W → address → address → address → uint256
                  → Callee W (option bool);
  raw_call : W → address → address → bytes → Callee W bool
}.

(** Contract storage, the contract's own address, its event log and the
    rest of the chain. *)
Record State (W : Type) : Type := mkState {
  self : address;
  owner : address;
  approvedDexRouters : gmap Z bool;
  logs : list Event;
  world : W
}.
Arguments mkState {W}.
Arguments self {W}.
Arguments owner {W}.
Arguments approvedDexRouters {W}.
Arguments logs {W}.
Arguments world {W}.

(** A Solidity mapping reads its default ([false]) at absent keys. *)
Definition approved {W} (s : State W) (router : address) : bool :=
  default false (approvedDexRouters s !! router).

Inductive result (A : Type) : Type :=
| Ok (a : A)
| Revert (f : Failure).
Arguments Ok {A}.
Arguments Revert {A}.

(** Checked subtraction of Solidity 0.8: underflow panics with code 0x11. *)
Definition checked_sub (a b : uint256) : result uint256 :=
  if a <? b then Revert (Panic 17) else Ok (a - b).

(** What a call back into the contract comes to: whether it succeeded, and
    the state it leaves.  The functions below are written against any such
    answer; [contract] further down is the contract's own. *)
Class Reentry (W : Type) : Type :=
  reenter : address → Call → State W → bool * State W.

Section Contract.
Context {W : Type} {chain : Chain W} {reentry : Reentry W}.

(** A frame's computation: the external calls it made, and either a value
    with the new state or the failure.  The calls are recorded whether or
    not the frame reverts. *)
Definition Exec (A : Type) : Type :=
  State W → list ExtCall * result (A * State W).

#[local] Instance Exec_ret : MRet Exec := λ A a s, ([], Ok (a, s)).

#[local] Instance Exec_bind : MBind Exec := λ A B k m s,
  match m s with
  | (t1, Ok (a, s1)) => let '(t2, r) := k a s1 in (t1 ++ t2, r)
  | (t1, Revert f) => (t1, Revert f)
  end.

Definition get_state : Exec (State W) := λ s, ([], Ok (s, s)).

Definition revert {A} (f : Failure) : Exec A := λ _, ([], Revert f).

Definition require (cond : bool) (reason : string) : Exec unit :=
  if cond then mret tt else revert (Error reason).

Definition lift_result {A} (r : result A) : Exec A :=
  match r with
  | Ok a => mret a
  | Revert f => revert f
  end.

Definition emit (e : Event) : Exec unit := λ s,
  ([], Ok (tt, mkState (self s) (owner s) (approvedDexRouters s)
                       (logs s ++ [e]) (world s))).

Definition sstore_router (router : address) (v : bool) : Exec unit := λ s,
  ([], Ok (tt, mkState (self s) (owner s)
                       (<[router := v]> (approvedDexRouters s))
                       (logs s) (world s))).

Definition set_world (w : W) (s : State W) : State W :=
  mkState (self s) (owner s) (approvedDexRouters s) (logs s) w.

(** The state a frame goes on with after a call back: what the nested frame
    left, at the address the contract has. *)
Definition resume (s s' : State W) : State W :=
  mkState (self s) (owner s') (approvedDexRouters s') (logs s') (world s').

(** The callee at work on the contract's state: every call back runs
    against the state as it is then, and what it changes (storage, log,
    chain) is what the callee and the calling frame go on with. *)
Fixpoint run_callee {A} (s : State W) (t : Callee W A) : A * State W :=
  match t with
  | Return a w => (a, set_world w s)
  | CallBack sender c w k =>
      let '(ok, s') := reenter sender c (set_world w s) in
      run_callee (resume s s') (k ok (world s'))
  end.

(** [IERC20(token).balanceOf(address(this))] *)
Definition balanceOf_this (token : address) : Exec uint256 := λ s,
  ([CallBalanceOf token (self s)],
   match erc20_balanceOf (world s) token (self s) with
   | Some b => Ok (b, s)
   | None => Revert CalleeReverted
   end).

(** What [target.call(data)] comes to: the success flag and the state
    after it; a failed call leaves no effect. *)
Definition leg (s : State W) (target : address) (data : bytes)
  : bool * State W :=
  let '(success, s') := run_callee s (raw_call (world s) (self s) target data) in
  (success, if success then s' else s).

(** [target.call(data)] *)
Definition call (target : address) (data : bytes) : Exec bool := λ s,
  let '(success, s') := leg s target data in
  ([CallRaw target data], Ok (success, s')).

(** [IERC20(token).transfer(to, amount)] *)
Definition transfer (token to : address) (amount : uint256) : Exec bool := λ s,
  ([CallTransfer token to amount],
   match run_callee s (erc20_transfer (world s) token (self s) to amount) with
   | (Some b, s') => Ok (b, s')
   | (None, _) => Revert CalleeReverted
   end).

(** [IERC20(token).approve(spender, amount)] *)
Definition approve (token spender : address) (amount : uint256) : Exec bool := λ s,
  ([CallApprove token spender amount],
   match run_callee s (erc20_approve (world s) token (self s) spender amount) with
   | (Some b, s') => Ok (b, s')
   | (None, _) => Revert CalleeReverted
   end).

(** Modelled from the spec: the [onlyOwner] modifier of the imported
    [Ownable] base contract (line 5), whose source is not part of the
    repository: the spec's owner-only access-control discipline, under
    which a caller that is not the owner fails with an authorization
    error before the body runs. *)
Definition onlyOwner (sender : address) (body : Exec unit) : Exec unit :=
  s ← get_state;
  if decide (owner s = sender) then body
  else revert (OwnableUnauthorizedAccount sender).

(** Lines 34-36. *)
Definition setDexRouterApproval (sender router : address) (approved : bool)
  : Exec unit :=
  onlyOwner sender (sstore_router router approved).

(** Lines 47-75. *)
Definition executeArbitrage (sender token buyDex sellDex : address)
    (buyData sellData : bytes) (amount : uint256) : Exec unit :=
  onlyOwner sender (
    s ← get_state;
    require (approved s buyDex) "Buy DEX not approved";;
    require (approved s sellDex) "Sell DEX not approved";;
    initialBalance ← balanceOf_this token;
    buySuccess ← call buyDex buyData;
    require buySuccess "Buy transaction failed";;
    sellSuccess ← call sellDex sellData;
    require sellSuccess "Sell transaction failed";;
    finalBalance ← balanceOf_this token;
    require (initialBalance <? finalBalance) "No profit generated";;
    profit ← lift_result (checked_sub finalBalance initialBalance);
    emit (ArbitrageExecuted token buyDex sellDex amount profit)).

(** Lines 83-86. *)
Definition withdrawFunds (sender token to : address) (amount : uint256)
  : Exec unit :=
  onlyOwner sender (
    transfer token to amount;;
    emit (FundsWithdrawn token to amount)).

(** Lines 94-96. *)
Definition approveToken (sender token spender : address) (amount : uint256)
  : Exec unit :=
  onlyOwner sender (
    approve token spender amount;;
    mret tt).

(** A transaction: on failure every effect of the frame is rolled back,
    the event log included; the trace of calls attempted is kept for
    inspection. *)
Record Receipt : Type := mkReceipt {
  status : result unit;
  trace : list ExtCall;
  post : State W
}.

Definition transact (m : Exec unit) (s : State W) : Receipt :=
  match m s with
  | (t, Ok (_, s')) => mkReceipt (Ok tt) t s'
  | (t, Revert f) => mkReceipt (Revert f) t s
  end.

(** ** Transactions in sequence *)

Definition dispatch (sender : address) (c : Call) : Exec unit :=
  match c with
  | SetDexRouterApproval router flag => setDexRouterApproval sender router flag
  | ExecuteArbitrage token buyDex sellDex buyData sellData amount =>
      executeArbitrage sender token buyDex sellDex buyData sellData amount
  | WithdrawFunds token to amount => withdrawFunds sender token to amount
  | ApproveToken token spender amount => approveToken sender token spender amount
  end.

(** One transaction after the other, each by its own sender; a reverted
    one leaves the state to the next as it found it. *)
Definition run_calls (calls : list (address * Call)) (s : State W) : State W :=
  foldl (λ s c, post (transact (dispatch c.1 c.2) s)) s calls.

End Contract.

(** The contract answering the calls back into it: a call back is one more
    frame of the same four functions, rolled back when it fails, whose own
    callees can call back in turn as long as call depth is left; with none
    left the call fails. *)
Fixpoint contract {W : Type} {chain : Chain W} (depth : nat) : Reentry W :=
  match depth with
  | O => λ _ _ s, (false, s)
  | S d => λ sender c s,
      let r := transact (dispatch (reentry := contract d) sender c) s in
      (match status r with
       | Ok _ => true
       | Revert _ => false
       end, post r)
  end.

(** An [ArbitrageExecuted] event that reports a profit of at least one
    unit; [FundsWithdrawn] carries no profit. *)
Definition reports_profit (e : Event) : Prop :=
  match e with
  | ArbitrageExecuted _ _ _ _ profit => 0 < profit
  | FundsWithdrawn _ _ _ => True
  end.

(** A way of answering calls back under which the log only grows, and only
    by events that report a profit. *)
Definition appends_profitably {W : Type} (answer : Reentry W) : Prop :=
  ∀ sender c s, ∃ new, logs (answer sender c s).2 = logs s ++ new ∧
                       Forall reports_profit new.

(** The spec's [AuthorizationError]: the caller is not the owner, or a
    router is not on the allow-list. *)
Definition AuthorizationError (sender : address) (f : Failure) : Prop :=
  f = OwnableUnauthorizedAccount sender ∨
  f = Error "Buy DEX not approved" ∨
  f = Error "Sell DEX not approved".

(** ** A mock chain

    One ledger of token balances keyed by (token, holder), a token whose
    [transfer] answers [false] (instead of reverting) when the sender's
    balance is too small, and routers steered by their calldata: the first
    byte selects the action, the second the number of units of [mock_token]
    credited to or taken from the caller.  Nothing here calls back. *)
Module Mock.

Definition mock_token : address := 100.

Definition balance (w : gmap (Z * Z) Z) (token account : address) : uint256 :=
  default 0 (w !! (token, account)).

Definition move (w : gmap (Z * Z) Z) (token from to : address)
    (amount : uint256) : gmap (Z * Z) Z :=
  let w1 := <[(token, from) := balance w token from - amount]> w in
  <[(token, to) := balance w1 token to + amount]> w1.

Definition router (w : gmap (Z * Z) Z) (caller target : address)
    (data : bytes) : bool * gmap (Z * Z) Z :=
  match data with
  | [] => (true, w)
  | op :: rest =>
      let n := match rest with
               | [] => 0
               | b :: _ => Z.of_N (Byte.to_N b)
               end in
      match Byte.to_N op with
      | 1%N => (true, <[(mock_token, caller) := balance w mock_token caller + n]> w)
      | 2%N => if balance w mock_token caller <? n then (false, w)
               else (true, <[(mock_token, caller) := balance w mock_token caller - n]> w)
      | _ => (false, w)
      end
  end.

#[export] Instance mock_chain : Chain (gmap (Z * Z) Z) := {|
  erc20_balanceOf w token account := Some (balance w token account);
  erc20_transfer w token from to amount :=
    if balance w token from <? amount then Return (Some false) w
    else Return (Some true) (move w token from to amount);
  erc20_approve w token holder spender amount := Return (Some true) w;
  raw_call w caller target data :=
    let '(success, w') := router w caller target data in Return success w'
|}.

#[export] Instance mock_reentry : Reentry (gmap (Z * Z) Z) := contract 4.

(** The contract at address 7, owned by 1, with routers 20 and 21 approved
    and 50 units of [mock_token] in inventory. *)
Definition deployed : State (gmap (Z * Z) Z) :=
  mkState 7 1 (<[20 := true]> (<[21 := true]> ∅)) []
          (<[(mock_token, 7) := 50]> ∅).

Definition gain (n : Byte.byte) : bytes := [Byte.x01; n].
Definition lose (n : Byte.byte) : bytes := [Byte.x02; n].
Definition failing : bytes := [Byte.x00].

End Mock.

(** ** A chain without tokens

    Every address is without code: a high-level call to it reverts, a
    low-level call reports success and does nothing. *)
Module Inert.

#[export] Instance inert_chain : Chain unit := {|
  erc20_balanceOf _ _ _ := None;
  erc20_transfer w _ _ _ _ := Return None w;
  erc20_approve w _ _ _ _ := Return None w;
  raw_call w _ _ _ := Return true w
|}.

#[export] Instance inert_reentry : Reentry unit := contract 4.

(** The contract at address 7, owned by 1, with routers 20 and 21
    approved. *)
Definition stranded : State unit :=
  mkState 7 1 (<[20 := true]> (<[21 := true]> ∅)) [] tt.

End Inert.

(** ** An owner that is also a router

    The world is the contract's balance of token 100.  Router 20 owns the
    contract; told [x03 n], it credits [n] units and, before it returns,
    calls [executeArbitrage(100, 21, 21, [x01; x03], [], 1)] back.  Router
    21 credits ([x01 n]) or takes ([x02 n]) what it is told. *)
Module Reentrant.

Definition router (w : Z) (caller target : address) (data : bytes)
  : Callee Z bool :=
  match data with
  | [] => Return true w
  | op :: rest =>
      let n := match rest with
               | [] => 0
               | b :: _ => Z.of_N (Byte.to_N b)
               end in
      match Byte.to_N op with
      | 1%N => Return true (w + n)
      | 2%N => if w <? n then Return false w else Return true (w - n)
      | 3%N => CallBack target
                 (ExecuteArbitrage 100 21 21 [Byte.x01; Byte.x03] [] 1)
                 (w + n) (λ ok w', Return ok w')
      | _ => Return false w
      end
  end.

#[export] Instance reentrant_chain : Chain Z := {|
  erc20_balanceOf w token account :=
    if decide (token = 100 ∧ account = 7) then Some w else Some 0;
  erc20_transfer w token from to amount := Return (Some true) w;
  erc20_approve w token holder spender amount := Return (Some true) w;
  raw_call := router
|}.

#[export] Instance reentrant_reentry : Reentry Z := contract 4.

(** The contract at address 7, owned by router 20, with routers 20 and 21
    approved and 50 units of token 100 in inventory. *)
Definition owned_by_router : State Z :=
  mkState 7 20 (<[20 := true]> (<[21 := true]> ∅)) [] 50.

End Reentrant.

End Settlement.

(** * The opportunity detector *)

Module Detector.

(** Modelled from the spec: the [PriceQuote] record of the data model; the
    service that builds it is not among the sources.  Prices and amounts
    are integers in the smallest unit, times in milliseconds. *)
Record PriceQuote : Type := mkQuote {
  venue : string;
  pair : string;
  bidPrice : Z;
  askPrice : Z;
  baseLiquidity : Z;
  observedAt : Z
}.

(** Modelled from the spec: the [Opportunity] record of the data model. *)
Record Opportunity : Type := mkOpportunity {
  opp_pair : string;
  buyVenue : string;
  sellVenue : string;
  buyPrice : Z;
  sellPrice : Z;
  notional : Z;
  estimatedProfit : Z;
  estimatedProfitBps : Z;
  detectedAt : Z;
  fingerprint : string
}.

(** Modelled from the spec: what the detector is configured with.  The
    spec names the fee and gas estimates, the threshold and the staleness
    window; it leaves the basis-point formula and the fingerprint hash
    open, so both are carried as functions. *)
Record Config : Type := mkConfig {
  tradeNotional : Z;
  feeEstimate : string → Z;
  gasEstimate : Z;
  minThresholdBps : Z;
  staleness_window : Z;
  profitBps : Z → Z → Z → Z;
  fingerprintOf : string → string → string → Z → Z → string
}.

(** Modelled from the spec: [activeQuotes], the quotes no older than the
    staleness window. *)
Definition activeQuotes (cfg : Config) (now : Z) (quotes : list PriceQuote)
  : list PriceQuote :=
  List.filter (λ q, now - observedAt q <=? staleness_window cfg) quotes.

(** Modelled from the spec: the candidate for buying at [qb]'s ask and
    selling at [qs]'s bid: [grossSpread = sell.bid - buy.ask] and
    [estimatedProfit = grossSpread * notional - fee(buy) - fee(sell) - gas]. *)
Definition candidate (cfg : Config) (now : Z) (qb qs : PriceQuote)
  : Opportunity :=
  let grossSpread := bidPrice qs - askPrice qb in
  let profit := grossSpread * tradeNotional cfg - feeEstimate cfg (venue qb)
                - feeEstimate cfg (venue qs) - gasEstimate cfg in
  mkOpportunity (pair qb) (venue qb) (venue qs) (askPrice qb) (bidPrice qs)
    (tradeNotional cfg) profit
    (profitBps cfg profit (askPrice qb) (tradeNotional cfg)) now
    (fingerprintOf cfg (pair qb) (venue qb) (venue qs) (askPrice qb) now).

(** Modelled from the spec: every ordered pair of distinct venues among the
    active quotes. *)
Definition candidates (cfg : Config) (now : Z) (active : list PriceQuote)
  : list Opportunity :=
  flat_map (λ qb,
    flat_map (λ qs,
      if String.eqb (venue qb) (venue qs) then []
      else [candidate cfg now qb qs]) active) active.

(** Modelled from the spec: the emission test, [estimatedProfit > 0] and
    [estimatedProfitBps ≥ minThresholdBps]. *)
Definition qualifies (cfg : Config) (o : Opportunity) : bool :=
  (0 <? estimatedProfit o) && (minThresholdBps cfg <=? estimatedProfitBps o).

(** Modelled from the spec: the tie-break, higher [estimatedProfit] first,
    then the lexicographically smaller venue pair. *)
Definition better (a b : Opportunity) : bool :=
  (estimatedProfit b <? estimatedProfit a)
  || ((estimatedProfit a =? estimatedProfit b)
      && (String.ltb (buyVenue a) (buyVenue b)
          || (String.eqb (buyVenue a) (buyVenue b)
              && String.ltb (sellVenue a) (sellVenue b)))).

(** Modelled from the spec: the single best of the qualifying candidates. *)
Fixpoint best (l : list Opportunity) : option Opportunity :=
  match l with
  | [] => None
  | o :: rest =>
      match best rest with
      | None => Some o
      | Some r => Some (if better r o then r else o)
      end
  end.

(** Modelled from the spec: one detection pass over a pair's quotes.  A
    winner whose fingerprint is already in flight in the orchestrator is
    suppressed. *)
Definition detect (cfg : Config) (in_flight : string → bool) (now : Z)
    (quotes : list PriceQuote) : option Opportunity :=
  match best (List.filter (qualifies cfg)
                (candidates cfg now (activeQuotes cfg now quotes))) with
  | Some o => if in_flight (fingerprint o) then None else Some o
  | None => None
  end.

(** Scenario A of the spec: V1 quotes 100/101, V2 quotes 103/104. *)
Definition scenario_config : Config :=
  mkConfig 1 (λ _, 0) 0 50 5000
    (λ profit price notional, profit * 10000 / (price * notional))
    (λ p b s _ _, String.append p (String.append b s)).

Definition scenario_quotes : list PriceQuote :=
  [mkQuote "V1" "X" 100 101 10 1000; mkQuote "V2" "X" 103 104 10 1000].

End Detector.

(** * The execution orchestrator *)

Module Orchestrator.

(** Modelled from the spec: the status of a [TradeExecution],
    [PENDING → SUBMITTED → {CONFIRMED | REVERTED | FAILED}]; the
    orchestrator itself is not among the sources. *)
Inductive Status : Type :=
| PENDING
| SUBMITTED
| CONFIRMED
| REVERTED
| FAILED.

#[export] Instance Status_eq_dec : EqDecision Status.
Proof. solve_decision. Defined.

(** Modelled from the spec: the terminal states. *)
Definition terminal (st : Status) : bool :=
  match st with
  | CONFIRMED | REVERTED | FAILED => true
  | PENDING | SUBMITTED => false
  end.

(** Modelled from the spec: the [TradeExecution] record of the data model. *)
Record TradeExecution : Type := mkExecution {
  opportunityFingerprint : string;
  status : Status;
  txHash : option string;
  realizedProfit : option Z;
  error : option string;
  startedAt : Z;
  completedAt : option Z
}.

(** Modelled from the spec: a non-terminal execution of the fingerprint. *)
Definition live (fp : string) (e : TradeExecution) : bool :=
  String.eqb (opportunityFingerprint e) fp && negb (terminal (status e)).

(** Modelled from the spec: whether the fingerprint has a non-terminal
    execution, the test [submit] makes. *)
Definition has_live (fp : string) (executions : list TradeExecution) : bool :=
  existsb (live fp) executions.

(** Modelled from the spec: [submit(opportunity)], a rejected no-op when a
    non-terminal execution exists for the fingerprint, otherwise a new
    [PENDING] execution.  The check and the insertion are one atomic step
    (the per-fingerprint lock of the spec). *)
Definition submit (o : Detector.Opportunity) (now : Z)
    (executions : list TradeExecution) : list TradeExecution :=
  if has_live (Detector.fingerprint o) executions then executions
  else executions ++ [mkExecution (Detector.fingerprint o) PENDING None None
                        None now None].

(** Modelled from the spec: a transition of the fingerprint's execution
    that is in state [from]; terminal executions never change. *)
Definition advance (fp : string) (from : Status)
    (f : TradeExecution → TradeExecution) (executions : list TradeExecution)
  : list TradeExecution :=
  map (λ e, if live fp e && bool_decide (status e = from) then f e else e)
      executions.

(** Modelled from the spec: what happens to executions, one atomic step
    each. *)
Inductive Action : Type :=
| Submit (o : Detector.Opportunity) (now : Z)
| Sent (fp : string) (tx : string)
| Confirmed (fp : string) (profit : Z) (now : Z)
| Reverted (fp : string) (reason : string) (now : Z)
| TimedOut (fp : string) (now : Z).

(** Modelled from the spec: the state machine of section 4.4, one action
    applied to the orchestrator's executions. *)
Definition step (executions : list TradeExecution) (a : Action)
  : list TradeExecution :=
  match a with
  | Submit o now => submit o now executions
  | Sent fp tx =>
      advance fp PENDING (λ e,
        mkExecution (opportunityFingerprint e) SUBMITTED (Some tx) None None
          (startedAt e) None) executions
  | Confirmed fp profit now =>
      advance fp SUBMITTED (λ e,
        mkExecution (opportunityFingerprint e) CONFIRMED (txHash e)
          (Some profit) None (startedAt e) (Some now)) executions
  | Reverted fp reason now =>
      advance fp SUBMITTED (λ e,
        mkExecution (opportunityFingerprint e) REVERTED (txHash e) None
          (Some reason) (startedAt e) (Some now)) executions
  | TimedOut fp now =>
      advance fp SUBMITTED (λ e,
        mkExecution (opportunityFingerprint e) FAILED (txHash e) None
          (Some "confirmation timed out") (startedAt e) (Some now)) executions
  end.

(** Modelled from the spec: the orchestrator's concurrent activity, as an
    interleaving of the atomic steps, oldest first. *)
Definition run (actions : list Action) (executions : list TradeExecution)
  : list TradeExecution :=
  foldl step executions actions.

(** How many executions of the fingerprint are non-terminal, and how many
    are [SUBMITTED]. *)
Definition live_count (fp : string) (executions : list TradeExecution) : nat :=
  length (List.filter (live fp) executions).

Definition submitted_count (fp : string) (executions : list TradeExecution)
  : nat :=
  length (List.filter (λ e, String.eqb (opportunityFingerprint e) fp
                            && bool_decide (status e = SUBMITTED)) executions).

End Orchestrator.

(** * The dashboards' WebSocket handlers *)

Module Dashboard.

(** A JavaScript value as [JSON.parse] builds it, and [undefined].  A number
    is carried by the bit pattern of its IEEE-754 double; an object by its
    own properties in order. *)
Inductive value : Type :=
| VUndefined
| VNull
| VBool (b : bool)
| VNum (bits : Z)
| VStr (s : string)
| VArr (items : list value)
| VObj (props : list (string * value)).

Definition double_is_zero (bits : Z) : bool :=
  Z.land bits (2 ^ 63 - 1) =? 0.

Definition double_is_nan (bits : Z) : bool :=
  (Z.land (Z.shiftr bits 52) 2047 =? 2047)
  && negb (Z.land bits (2 ^ 52 - 1) =? 0).

(** Truthiness, as [if (v)] tests it. *)
Definition ToBoolean (v : value) : bool :=
  match v with
  | VUndefined | VNull => false
  | VBool b => b
  | VNum bits => negb (double_is_zero bits || double_is_nan bits)
  | VStr s => negb (String.eqb s "")
  | VArr _ | VObj _ => true
  end.

Fixpoint own_property (props : list (string * value)) (key : string)
  : option value :=
  match props with
  | [] => None
  | (k, v) :: rest => if String.eqb k key then Some v else own_property rest key
  end.

(** [v[key]] and [v.key] for the keys the handlers read ("type", "data",
    "prices", "BTC/USDT"): [None] is the TypeError of reading a property of
    [null] or [undefined]; an object answers its own property or
    [undefined]; arrays and primitives have no property of these names. *)
Definition get (v : value) (key : string) : option value :=
  match v with
  | VUndefined | VNull => None
  | VObj props => Some (default VUndefined (own_property props key))
  | VBool _ | VNum _ | VStr _ | VArr _ => Some VUndefined
  end.

(** [v === "literal"] *)
Definition strict_eq (v : value) (literal : string) : bool :=
  match v with
  | VStr s => String.eqb s literal
  | _ => false
  end.

(** [Array.prototype.slice(start, end)]: negative indices count from the
    end, both are clamped to the array. *)
Definition slice {A} (l : list A) (start : Z) (end_ : option Z) : list A :=
  let len := Z.of_nat (length l) in
  let clamp i := if i <? 0 then Z.max (len + i) 0 else Z.min i len in
  let k := clamp start in
  let final := match end_ with
               | None => len
               | Some e => clamp e
               end in
  take (Z.to_nat (final - k)) (drop (Z.to_nat k) l).

Record HistoryPoint : Type := mkPoint {
  timestamp : string;
  prices : value
}.

(** The four pieces of React state the handlers set. *)
Record State : Type := mkDash {
  opportunities : list value;
  trades : list value;
  marketData : value;
  priceHistory : list HistoryPoint
}.

(** [useState([])], [useState([])], [useState({})], [useState([])]. *)
Definition initial : State := mkDash [] [] (VObj []) [].

(** [useState('BTC/USDT')]; [setSelectedPair] is never called. *)
Definition selectedPair : string := "BTC/USDT".

(** What a handler run sees from outside: [JSON.parse(event.data)], [None]
    when the text is not JSON, and the [new Date().toLocaleTimeString()] it
    would read. *)
Record MessageEvent : Type := mkEvent {
  parsed : option value;
  clock : string
}.

(** A handler body: it sets state as it goes and may throw; what was set
    before a throw stays set. *)
Definition Handler (A : Type) : Type := State → State * option A.

#[export] Instance Handler_ret : MRet Handler := λ A a st, (st, Some a).

#[export] Instance Handler_bind : MBind Handler := λ A B k m st,
  match m st with
  | (st1, Some a) => k a st1
  | (st1, None) => (st1, None)
  end.

Definition or_throw {A} (o : option A) : Handler A := λ st, (st, o).

Definition when (cond : bool) (body : Handler unit) : Handler unit :=
  if cond then body else mret tt.

Definition setMarketData (v : value) : Handler unit := λ st,
  (mkDash (opportunities st) (trades st) v (priceHistory st), Some tt).

Definition setPriceHistory (f : list HistoryPoint → list HistoryPoint)
  : Handler unit := λ st,
  (mkDash (opportunities st) (trades st) (marketData st) (f (priceHistory st)),
   Some tt).

Definition setOpportunities (f : list value → list value) : Handler unit :=
  λ st,
  (mkDash (f (opportunities st)) (trades st) (marketData st) (priceHistory st),
   Some tt).

Definition setTrades (f : list value → list value) : Handler unit := λ st,
  (mkDash (opportunities st) (f (trades st)) (marketData st) (priceHistory st),
   Some tt).

(** [pages/index.js], lines 56-99. *)
Module Index.

Definition onmessage (event : MessageEvent) : Handler unit :=
  data ← or_throw (parsed event);
  type ← or_throw (get data "type");
  when (strict_eq type "market_update") (
    payload ← or_throw (get data "data");
    setMarketData payload;;
    entry ← or_throw (get payload selectedPair);
    when (ToBoolean entry) (
      entry ← or_throw (get payload selectedPair);
      prices ← or_throw (get entry "prices");
      let timestamp := clock event in
      setPriceHistory (λ prev,
        let newHistory := prev ++ [mkPoint timestamp prices] in
        if 20 <? Z.of_nat (length newHistory) then
          slice newHistory (Z.of_nat (length newHistory) - 20) None
        else newHistory)));;
  type ← or_throw (get data "type");
  when (strict_eq type "arbitrage_opportunity") (
    payload ← or_throw (get data "data");
    setOpportunities (λ prev,
      let newOpportunities := payload :: prev in
      if 10 <? Z.of_nat (length newOpportunities) then
        slice newOpportunities 0 (Some 10)
      else newOpportunities));;
  type ← or_throw (get data "type");
  when (strict_eq type "trade_execution") (
    payload ← or_throw (get data "data");
    setTrades (λ prev,
      let newTrades := payload :: prev in
      if 10 <? Z.of_nat (length newTrades) then
        slice newTrades 0 (Some 10)
      else newTrades)).

End Index.

(** [frontend/app/page.jsx], lines 46-70. *)
Module Page.

Definition onmessage (event : MessageEvent) : Handler unit :=
  data ← or_throw (parsed event);
  type ← or_throw (get data "type");
  when (strict_eq type "market_update") (
    payload ← or_throw (get data "data");
    setMarketData payload;;
    entry ← or_throw (get payload selectedPair);
    when (ToBoolean entry) (
      entry ← or_throw (get payload selectedPair);
      prices ← or_throw (get entry "prices");
      let timestamp := clock event in
      setPriceHistory (λ prev,
        let newHistory := prev ++ [mkPoint timestamp prices] in
        slice newHistory (-20) None)));;
  type ← or_throw (get data "type");
  when (strict_eq type "arbitrage_opportunity") (
    payload ← or_throw (get data "data");
    setOpportunities (λ prev, slice (payload :: prev) 0 (Some 10)));;
  type ← or_throw (get data "type");
  when (strict_eq type "trade_execution") (
    payload ← or_throw (get data "data");
    setTrades (λ prev, slice (payload :: prev) 0 (Some 10))).

End Page.

(** The state after a sequence of messages, oldest first. *)
Definition run (onmessage : MessageEvent → Handler unit)
    (events : list MessageEvent) (st : State) : State :=
  foldl (λ st event, (onmessage event st).1) st events.

(** The payload of a message of the given type, when it has one. *)
Definition payload_of (kind : string) (event : MessageEvent) : option value :=
  data ← parsed event;
  type ← get data "type";
  if strict_eq type kind then get data "data" else None.

(** The chart point a [market_update] contributes, when it carries the
    selected pair. *)
Definition point_of (event : MessageEvent) : option HistoryPoint :=
  payload ← payload_of "market_update" event;
  entry ← get payload selectedPair;
  if ToBoolean entry then
    prices ← get entry "prices";
    Some (mkPoint (clock event) prices)
  else None.

(** The last [n] elements. *)
Definition newest {A} (n : nat) (l : list A) : list A :=
  drop (length l - n) l.

(** A server push such as [{"type": "arbitrage_opportunity", "data":
    {"id": n}}]. *)
Definition opportunity_message (n : Z) : MessageEvent :=
  mkEvent (Some (VObj [("type", VStr "arbitrage_opportunity");
                       ("data", VObj [("id", VNum n)])])) "12:00:00".

(** A server push such as [{"type": "market_update", "data": {"BTC/USDT":
    {"prices": {"venue": n}}}}]. *)
Definition market_message (n : Z) : MessageEvent :=
  mkEvent (Some (VObj [("type", VStr "market_update");
                       ("data", VObj [("BTC/USDT",
                                       VObj [("prices",
                                              VObj [("venue", VNum n)])])])]))
          "12:00:00".

(** ** Loading over HTTP and chart colours *)

(** A [fetch] as the dashboards issue it. *)
Record Request : Type := mkRequest {
  url : string;
  method : string;
  headers : list (string * string)
}.

(** What a [fetch] comes to: the promise rejects, or there is a response
    with its [ok] flag and what [res.json()] resolves to, [None] when that
    rejects. *)
Inductive Fetched : Type :=
| Rejected
| Response (ok : bool) (json : option value).

(** What [fetchData] does, in order. *)
Inductive Effect : Type :=
| Fetch (request : Request)
| SetOpportunitiesTo (v : value)
| SetTradesTo (v : value)
| SetMarketDataTo (v : value)
| ConsoleError (message : string).

(** [fetch(`http://localhost:8000/${endpoint}`, { headers: { Authorization:
    `Bearer ${apiKey}` } })] *)
Definition api_request (apiKey endpoint : string) : Request :=
  mkRequest ("http://localhost:8000/" +:+ endpoint) "GET"
    [("Authorization", "Bearer " +:+ apiKey)].

Definition is_state_change (e : Effect) : bool :=
  match e with
  | SetOpportunitiesTo _ | SetTradesTo _ | SetMarketDataTo _ => true
  | Fetch _ | ConsoleError _ => false
  end.

(** The setter calls among the effects, and the requests. *)
Definition state_changes (effects : list Effect) : list Effect :=
  List.filter is_state_change effects.

Definition requests (effects : list Effect) : list Request :=
  omap (λ e, match e with Fetch r => Some r | _ => None end) effects.

(** [pages/index.js], lines 126-164. *)
Module IndexJs.

(** One of the three blocks of the [try] body, with what follows it:
    [await fetch], then [if (response.ok)] the body is parsed and set. *)
Definition fetch_and_set (server : Request → Fetched) (request : Request)
    (set : value → Effect) (rest : list Effect) : list Effect :=
  Fetch request ::
  match server request with
  | Rejected => [ConsoleError "Error fetching data:"]
  | Response true (Some v) => set v :: rest
  | Response true None => [ConsoleError "Error fetching data:"]
  | Response false _ => rest
  end.

Definition fetchData (apiKey : string) (server : Request → Fetched)
  : list Effect :=
  if String.eqb apiKey EmptyString then []
  else
    fetch_and_set server (api_request apiKey "opportunities")
      SetOpportunitiesTo
      (fetch_and_set server (api_request apiKey "trades") SetTradesTo
         (fetch_and_set server (api_request apiKey "market-data")
            SetMarketDataTo [])).

End IndexJs.

(** [frontend/app/page.jsx], lines 86-109. *)
Module PageJsx.

(** [res.ok ? res.json() : []] *)
Definition body_or_empty (ok : bool) (json : option value) : option value :=
  if ok then json else Some (VArr []).

Definition fetchData (apiKey : string) (server : Request → Fetched)
  : list Effect :=
  if String.eqb apiKey EmptyString then []
  else
    let q1 := api_request apiKey "opportunities" in
    let q2 := api_request apiKey "trades" in
    let q3 := api_request apiKey "market-data" in
    [Fetch q1; Fetch q2; Fetch q3] ++
    match server q1, server q2, server q3 with
    | Response ok1 json1, Response ok2 json2, Response ok3 json3 =>
        match body_or_empty ok1 json1, body_or_empty ok2 json2,
              body_or_empty ok3 json3 with
        | Some oppsData, Some tradesData, Some marketData =>
            [SetOpportunitiesTo oppsData; SetTradesTo tradesData;
             SetMarketDataTo marketData]
        | _, _, _ => [ConsoleError "Error fetching data:"]
        end
    | _, _, _ => [ConsoleError "Error fetching data:"]
    end.

End PageJsx.

(** A request that comes to nothing: the fetch rejects, or the response
    is [ok] and its body does not parse. *)
Definition fails (server : Request → Fetched) (q : Request) : Prop :=
  server q = Rejected ∨ server q = Response true None.

(** [getColor(index, alpha = 1)], the same in both files: [alpha] as the
    template literal prints it ("1" by default, "0.1" for the fill), the
    index an integer; a negative remainder is no index of [colors]. *)
Definition colors (alpha : string) : list string :=
  ["rgba(255, 99, 132, " +:+ alpha +:+ ")";
   "rgba(54, 162, 235, " +:+ alpha +:+ ")";
   "rgba(255, 206, 86, " +:+ alpha +:+ ")";
   "rgba(75, 192, 192, " +:+ alpha +:+ ")";
   "rgba(153, 102, 255, " +:+ alpha +:+ ")"].

Definition getColor (index : Z) (alpha : string) : option string :=
  let i := Z.rem index (Z.of_nat (length (colors alpha))) in
  if i <? 0 then None else colors alpha !! Z.to_nat i.

(** Servers for trying the loaders: one that answers every request with
    [[]]-like data, one that rejects the key, one whose trades endpoint is
    down. *)
Definition serving (v : value) : Request → Fetched :=
  λ _, Response true (Some v).

Definition denying : Request → Fetched :=
  λ _, Response false None.

Definition trades_down (v : value) : Request → Fetched :=
  λ q, if String.eqb (url q) "http://localhost:8000/trades" then Rejected
       else Response true (Some v).

End Dashboard.

Import Settlement.

(** * Properties of the settlement contract *)

Section SettlementFacts.
Context {W : Type} {chain : Chain W} {reentry : Reentry W}.

Ltac exec_unfold :=
  unfold transact, executeArbitrage, withdrawFunds, approveToken,
    setDexRouterApproval, onlyOwner, require, lift_result, checked_sub,
    get_state, revert, emit, sstore_router, balanceOf_this, call, transfer,
    approve, mbind, mret, Exec_bind, Exec_ret in *.

(** A failed transaction leaves the state as it was. *)
Lemma transact_revert_post (m : Exec unit) (s : State W) f :
  status (transact m s) = Revert f → post (transact m s) = s.
Proof.
  unfold transact. destruct (m s) as [t [[u s']|f']]; simpl; [discriminate | done].
Qed.

(** Whatever a callee does, the contract stays at its address. *)
Lemma run_callee_self {A} (t : Callee W A) (s : State W) :
  self (run_callee s t).2 = self s.
Proof.
  revert s. induction t as [a w|sender c w k IH]; intros s; simpl; [done|].
  destruct (reenter sender c (set_world w s)) as [ok s']. by rewrite IH.
Qed.

Lemma leg_self (s : State W) target data s1 ok :
  leg s target data = (ok, s1) → self s1 = self s.
Proof.
  unfold leg.
  pose proof (run_callee_self (raw_call (world s) (self s) target data) s)
    as Hself.
  destruct (run_callee s (raw_call (world s) (self s) target data))
    as [[] s']; simpl in *; by intros [= _ <-].
Qed.

(** A callee that returns without calling back changes the chain only. *)
Lemma leg_return (s : State W) target data ok w :
  raw_call (world s) (self s) target data = Return ok w →
  leg s target data = (ok, if ok then set_world w s else s).
Proof. unfold leg. by intros ->. Qed.

(** What a completed settlement went through: the owner called, both
    routers were approved, both legs reported success and the balance
    grew. *)
Lemma executeArbitrage_success_inv (s : State W) sender token buyDex sellDex
    buyData sellData amount :
  status (transact (executeArbitrage sender token buyDex sellDex buyData
                      sellData amount) s) = Ok tt →
  ∃ b0 s1 s2 b1,
    owner s = sender ∧ approved s buyDex = true ∧ approved s sellDex = true ∧
    erc20_balanceOf (world s) token (self s) = Some b0 ∧
    leg s buyDex buyData = (true, s1) ∧
    leg s1 sellDex sellData = (true, s2) ∧
    erc20_balanceOf (world s2) token (self s) = Some b1 ∧
    b0 < b1 ∧
    post (transact (executeArbitrage sender token buyDex sellDex buyData
                      sellData amount) s)
    = mkState (self s) (owner s2) (approvedDexRouters s2)
        (logs s2 ++ [ArbitrageExecuted token buyDex sellDex amount (b1 - b0)])
        (world s2) ∧
    trace (transact (executeArbitrage sender token buyDex sellDex buyData
                       sellData amount) s)
    = [CallBalanceOf token (self s); CallRaw buyDex buyData;
       CallRaw sellDex sellData; CallBalanceOf token (self s)].
Proof.
  exec_unfold.
  destruct (decide (owner s = sender)) as [Ho|Ho]; simpl; [|discriminate].
  destruct (approved s buyDex) eqn:Hb; simpl; [|discriminate].
  destruct (approved s sellDex) eqn:Hs; simpl; [|discriminate].
  destruct (erc20_balanceOf (world s) token (self s)) as [b0|] eqn:H0; simpl;
    [|discriminate].
  destruct (leg s buyDex buyData) as [[] s1] eqn:H1; simpl; [|discriminate].
  pose proof (leg_self _ _ _ _ _ H1) as Hs1.
  destruct (leg s1 sellDex sellData) as [[] s2] eqn:H2; simpl; [|discriminate].
  pose proof (leg_self _ _ _ _ _ H2) as Hs2. rewrite Hs1 in Hs2.
  rewrite Hs2.
  destruct (erc20_balanceOf (world s2) token (self s)) as [b1|] eqn:H3; simpl;
    [|discriminate].
  destruct (b0 <? b1) eqn:Hlt; simpl; [|discriminate].
  assert (b0 < b1) by lia.
  destruct (b1 <? b0) eqn:Hgt; [lia|]. simpl. rewrite Hs2.
  intros _. exists b0, s1, s2, b1. repeat split; auto.
Qed.

(** The run of [executeArbitrage] once the owner calls with approved
    routers and the first balance query answers: determined by what the
    two legs and the second query report. *)
Lemma executeArbitrage_run (s : State W) sender token buyDex sellDex
    buyData sellData amount b0 okb s1 oks s2 :
  owner s = sender →
  approved s buyDex = true → approved s sellDex = true →
  erc20_balanceOf (world s) token (self s) = Some b0 →
  leg s buyDex buyData = (okb, s1) →
  leg s1 sellDex sellData = (oks, s2) →
  transact (executeArbitrage sender token buyDex sellDex buyData sellData
              amount) s
  = if okb then
      if oks then
        match erc20_balanceOf (world s2) token (self s) with
        | Some b1 =>
            if b0 <? b1 then
              mkReceipt (Ok tt)
                [CallBalanceOf token (self s); CallRaw buyDex buyData;
                 CallRaw sellDex sellData; CallBalanceOf token (self s)]
                (mkState (self s) (owner s2) (approvedDexRouters s2)
                   (logs s2 ++ [ArbitrageExecuted token buyDex sellDex amount
                                  (b1 - b0)]) (world s2))
            else
              mkReceipt (Revert (Error "No profit generated"))
                [CallBalanceOf token (self s); CallRaw buyDex buyData;
                 CallRaw sellDex sellData; CallBalanceOf token (self s)] s
        | None =>
            mkReceipt (Revert CalleeReverted)
              [CallBalanceOf token (self s); CallRaw buyDex buyData;
               CallRaw sellDex sellData; CallBalanceOf token (self s)] s
        end
      else
        mkReceipt (Revert (Error "Sell transaction failed"))
          [CallBalanceOf token (self s); CallRaw buyDex buyData;
           CallRaw sellDex sellData] s
    else
      mkReceipt (Revert (Error "Buy transaction failed"))
        [CallBalanceOf token (self s); CallRaw buyDex buyData] s.
Proof.
  intros Ho Hb Hs H0 H1 H2.
  pose proof (leg_self _ _ _ _ _ H1) as Hs1.
  pose proof (leg_self _ _ _ _ _ H2) as Hs2. rewrite Hs1 in Hs2.
  exec_unfold.
  destruct (decide (owner s = sender)); [|done]. simpl.
  rewrite Hb, Hs. simpl. rewrite H0, H1. simpl.
  destruct okb; simpl; [|done].
  rewrite H2. simpl. destruct oks; simpl; [|done].
  rewrite Hs2.
  destruct (erc20_balanceOf (world s2) token (self s)) as [b1|]; simpl; [|done].
  destruct (b0 <? b1) eqn:Hlt; simpl; [|done].
  destruct (b1 <? b0) eqn:Hgt; [lia|]. simpl. by rewrite Hs2.
Qed.

(** C1. When both legs succeed and the token balance after them is at most
    the balance recorded before the buy leg, [executeArbitrage] reverts:
    the state after the transaction is the state before it, so no
    [ArbitrageExecuted] event is logged; called by the owner with approved
    routers the reason is "No profit generated".  A settlement completes
    only if the final balance is strictly above the initial one.  This
    holds whatever the legs did while they had control, calls back into
    the contract included. *)
Theorem executeArbitrage_profit_invariant (s : State W) sender token buyDex
    sellDex buyData sellData amount b0 s1 s2 b1 :
  erc20_balanceOf (world s) token (self s) = Some b0 →
  leg s buyDex buyData = (true, s1) →
  leg s1 sellDex sellData = (true, s2) →
  erc20_balanceOf (world s2) token (self s) = Some b1 →
  let r := transact (executeArbitrage sender token buyDex sellDex buyData
                       sellData amount) s in
  (b1 ≤ b0 →
     (∃ f, status r = Revert f) ∧ post r = s ∧ logs (post r) = logs s ∧
     (owner s = sender → approved s buyDex = true →
      approved s sellDex = true →
      status r = Revert (Error "No profit generated"))) ∧
  (status r = Ok tt → b0 < b1).
Proof.
  intros H0 H1 H2 H3 r.
  assert (Hinv : status r = Ok tt → b0 < b1).
  { intros Hok. apply executeArbitrage_success_inv in Hok.
    destruct Hok as (c0 & v1 & v2 & c1 & _ & _ & _ & E0 & E1 & E2 & E3 & Hlt & _).
    congruence. }
  split; [|exact Hinv].
  intros Hle.
  assert (Hrev : ∃ f, status r = Revert f).
  { destruct (status r) as [[]|f] eqn:Hst; [|eauto].
    specialize (Hinv eq_refl). lia. }
  destruct Hrev as [f Hf].
  pose proof (transact_revert_post _ _ _ Hf) as Hpost. fold r in Hpost.
  repeat split; [eauto | exact Hpost | by rewrite Hpost |].
  intros Ho Hb Hs. subst r.
  rewrite (executeArbitrage_run s sender token buyDex sellDex buyData
             sellData amount b0 true s1 true s2 Ho Hb Hs H0 H1 H2), H3.
  destruct (b0 <? b1) eqn:Hlt; [lia|done].
Qed.

(** C2. When the buy router or the sell router is not on the allow-list,
    [executeArbitrage] fails with an authorization error, the state is
    unchanged and no external call is made: no leg call, no balance
    query.  This holds whoever calls. *)
Theorem executeArbitrage_unapproved_router (s : State W) sender token buyDex
    sellDex buyData sellData amount :
  approved s buyDex = false ∨ approved s sellDex = false →
  let r := transact (executeArbitrage sender token buyDex sellDex buyData
                       sellData amount) s in
  (∃ f, status r = Revert f ∧ AuthorizationError sender f) ∧
  post r = s ∧ trace r = [] ∧
  (owner s = sender → approved s buyDex = false →
   status r = Revert (Error "Buy DEX not approved")) ∧
  (owner s = sender → approved s buyDex = true →
   status r = Revert (Error "Sell DEX not approved")).
Proof.
  intros Hun. unfold AuthorizationError. exec_unfold.
  destruct (decide (owner s = sender)) as [Ho|Ho]; simpl.
  - destruct (approved s buyDex) eqn:Hb; simpl.
    + destruct Hun as [?|Hs]; [done|]. rewrite Hs. simpl.
      repeat split; eauto 6. done.
    + repeat split; eauto 6. done.
  - repeat split; eauto 6; done.
Qed.

(** C3. The legs run in order, buy then sell, the sell leg on the state
    the buy leg left.  When the buy leg reports failure the sell leg is
    not attempted; when either leg reports failure the transaction
    reverts and the state, and with it the contract's token balance, is
    what it was before the call. *)
Theorem executeArbitrage_leg_failure_atomic (s : State W) sender token
    buyDex sellDex buyData sellData amount b0 okb s1 oks s2 :
  owner s = sender →
  approved s buyDex = true → approved s sellDex = true →
  erc20_balanceOf (world s) token (self s) = Some b0 →
  leg s buyDex buyData = (okb, s1) →
  leg s1 sellDex sellData = (oks, s2) →
  okb && oks = false →
  let r := transact (executeArbitrage sender token buyDex sellDex buyData
                       sellData amount) s in
  status r = Revert (Error (if okb then "Sell transaction failed"
                            else "Buy transaction failed")) ∧
  trace r = [CallBalanceOf token (self s); CallRaw buyDex buyData]
            ++ (if okb then [CallRaw sellDex sellData] else []) ∧
  post r = s ∧
  erc20_balanceOf (world (post r)) token (self (post r)) = Some b0.
Proof.
  intros Ho Hb Hs H0 H1 H2 Hfail r. subst r.
  rewrite (executeArbitrage_run s sender token buyDex sellDex buyData
             sellData amount b0 okb s1 oks s2 Ho Hb Hs H0 H1 H2).
  destruct okb; simpl in *; [subst oks|]; simpl; auto.
Qed.

(** C4, as amended. Every call of [executeArbitrage] that completes went
    through two successful legs and the profit check, and its own frame
    emits exactly one event, the last of the log: [ArbitrageExecuted] whose
    profit is the final balance minus the initial balance of the token.
    Whatever else was logged during the call was logged by calls back into
    the contract while a leg had control; when neither leg calls back, the
    one event is all the call appends. *)
Theorem executeArbitrage_emits_realized_profit (s : State W) sender token
    buyDex sellDex buyData sellData amount :
  let r := transact (executeArbitrage sender token buyDex sellDex buyData
                       sellData amount) s in
  status r = Ok tt →
  ∃ initialBalance s1 s2 finalBalance,
    erc20_balanceOf (world s) token (self s) = Some initialBalance ∧
    leg s buyDex buyData = (true, s1) ∧
    leg s1 sellDex sellData = (true, s2) ∧
    erc20_balanceOf (world s2) token (self s) = Some finalBalance ∧
    initialBalance < finalBalance ∧
    logs (post r)
    = logs s2 ++ [ArbitrageExecuted token buyDex sellDex amount
                    (finalBalance - initialBalance)] ∧
    (∀ ok1 w1 ok2 w2,
       raw_call (world s) (self s) buyDex buyData = Return ok1 w1 →
       raw_call w1 (self s) sellDex sellData = Return ok2 w2 →
       logs (post r)
       = logs s ++ [ArbitrageExecuted token buyDex sellDex amount
                      (finalBalance - initialBalance)]).
Proof.
  intros r Hok. apply executeArbitrage_success_inv in Hok.
  destruct Hok as (b0 & s1 & s2 & b1 & _ & _ & _ & E0 & E1 & E2 & E3 & Hlt
                   & Hpost & _).
  exists b0, s1, s2, b1. subst r. rewrite Hpost. simpl.
  repeat split; auto.
  intros ok1 w1 ok2 w2 R1 R2.
  rewrite (leg_return s _ _ _ _ R1) in E1. injection E1 as -> <-.
  rewrite (leg_return (set_world w1 s) _ _ _ _ R2) in E2.
  injection E2 as -> <-. done.
Qed.

(** C5. The four entry points are owner-only: called by anyone but the
    owner, each fails with [OwnableUnauthorizedAccount], makes no external
    call and leaves the state unchanged. *)
Theorem entry_points_owner_only (s : State W) sender :
  sender ≠ owner s →
  (∀ router flag,
     transact (setDexRouterApproval sender router flag) s
     = mkReceipt (Revert (OwnableUnauthorizedAccount sender)) [] s) ∧
  (∀ token buyDex sellDex buyData sellData amount,
     transact (executeArbitrage sender token buyDex sellDex buyData sellData
                 amount) s
     = mkReceipt (Revert (OwnableUnauthorizedAccount sender)) [] s) ∧
  (∀ token to amount,
     transact (withdrawFunds sender token to amount) s
     = mkReceipt (Revert (OwnableUnauthorizedAccount sender)) [] s) ∧
  (∀ token spender amount,
     transact (approveToken sender token spender amount) s
     = mkReceipt (Revert (OwnableUnauthorizedAccount sender)) [] s).
Proof.
  intros Hne. repeat split; intros; exec_unfold;
    destruct (decide (owner s = sender)); simpl; congruence.
Qed.

(** The owner's [setDexRouterApproval] always completes and only writes
    the one mapping slot. *)
Lemma setDexRouterApproval_run (s : State W) router flag :
  transact (setDexRouterApproval (owner s) router flag) s
  = mkReceipt (Ok tt) []
      (mkState (self s) (owner s) (<[router := flag]> (approvedDexRouters s))
         (logs s) (world s)).
Proof.
  exec_unfold. destruct (decide (owner s = owner s)); [done|congruence].
Qed.

(** C6. [setDexRouterApproval] is idempotent: the owner calling it twice
    in a row with the same router and flag leaves the state that one call
    leaves; after the call the router's entry reads the flag and every
    other router's entry reads what it read before. *)
Theorem setDexRouterApproval_idempotent (s : State W) sender router flag :
  sender = owner s →
  let once := post (transact (setDexRouterApproval sender router flag) s) in
  let twice := post (transact (setDexRouterApproval sender router flag) once) in
  twice = once ∧
  approved once router = flag ∧
  (∀ other, other ≠ router → approved once other = approved s other).
Proof.
  intros -> once twice. subst twice once.
  rewrite setDexRouterApproval_run. simpl.
  set (s1 := mkState _ _ _ _ _).
  change (owner s) with (owner s1). rewrite setDexRouterApproval_run.
  subst s1. simpl. rewrite insert_insert_eq.
  repeat split.
  - unfold approved. simpl. by rewrite lookup_insert_eq.
  - intros other Hne. unfold approved. simpl. by rewrite lookup_insert_ne.
Qed.

(** C9. [withdrawFunds] does not look at what [transfer] returns: whenever
    the owner calls and the token's [transfer] does not revert, the
    transaction completes and logs [FundsWithdrawn token to amount] after
    whatever the token's call left, whether [transfer] answered [true] or
    [false]; when the token does not call back, that event is all the call
    appends and the chain is the one the token left. *)
Theorem withdrawFunds_ignores_transfer_result (s : State W) sender token to
    amount returned s' :
  sender = owner s →
  run_callee s (erc20_transfer (world s) token (self s) to amount)
  = (Some returned, s') →
  let r := transact (withdrawFunds sender token to amount) s in
  status r = Ok tt ∧
  trace r = [CallTransfer token to amount] ∧
  logs (post r) = logs s' ++ [FundsWithdrawn token to amount] ∧
  world (post r) = world s' ∧
  (∀ w, erc20_transfer (world s) token (self s) to amount
        = Return (Some returned) w →
        logs (post r) = logs s ++ [FundsWithdrawn token to amount] ∧
        world (post r) = w).
Proof.
  intros -> Ht r. subst r. exec_unfold.
  destruct (decide (owner s = owner s)); [|congruence]. simpl.
  rewrite Ht. simpl. do 4 (split; [done|]).
  intros w Hret. rewrite Hret in Ht. simpl in Ht. by injection Ht as <-.
Qed.

(** ** Beyond the settlement path *)

(** A full case analysis of [executeArbitrage]: the calls it makes are an
    initial segment of balance query, buy, sell, balance query, and either
    the state is rolled back or both legs succeeded and the frame logged
    one event with a positive profit on top of what the legs left. *)
Lemma executeArbitrage_cases (s : State W) sender token buyDex sellDex
    buyData sellData amount :
  let r := transact (executeArbitrage sender token buyDex sellDex buyData
                       sellData amount) s in
  trace r `prefix_of` [CallBalanceOf token (self s); CallRaw buyDex buyData;
                       CallRaw sellDex sellData; CallBalanceOf token (self s)]
  ∧ (post r = s ∨
     ∃ s1 s2 profit, 0 < profit ∧
       leg s buyDex buyData = (true, s1) ∧
       leg s1 sellDex sellData = (true, s2) ∧
       post r = mkState (self s) (owner s2) (approvedDexRouters s2)
                  (logs s2 ++ [ArbitrageExecuted token buyDex sellDex amount
                                 profit]) (world s2)).
Proof.
  cbv zeta.
  destruct (status (transact (executeArbitrage sender token buyDex sellDex
                                buyData sellData amount) s))
    as [[]|f] eqn:Hst.
  - apply executeArbitrage_success_inv in Hst
      as (b0 & s1 & s2 & b1 & _ & _ & _ & _ & H1 & H2 & _ & Hlt & Hpost & Htr).
    rewrite Htr, Hpost. split; [done|]. right. exists s1, s2, (b1 - b0).
    repeat split; [lia | done | done].
  - split; [|left; by eapply transact_revert_post].
    clear Hst. exec_unfold.
    destruct (decide (owner s = sender)); simpl; [|apply prefix_nil].
    destruct (approved s buyDex); simpl; [|apply prefix_nil].
    destruct (approved s sellDex); simpl; [|apply prefix_nil].
    destruct (erc20_balanceOf (world s) token (self s)) as [b0|]; simpl;
      [|by eexists].
    destruct (leg s buyDex buyData) as [[] s1] eqn:H1; simpl; [|by eexists].
    pose proof (leg_self _ _ _ _ _ H1) as Hs1.
    destruct (leg s1 sellDex sellData) as [[] s2] eqn:H2; simpl;
      [|by eexists].
    pose proof (leg_self _ _ _ _ _ H2) as Hs2. rewrite Hs1 in Hs2.
    rewrite Hs2.
    destruct (erc20_balanceOf (world s2) token (self s)) as [b1|]; simpl;
      [|done].
    destruct (b0 <? b1); simpl; [|done].
    destruct (b1 <? b0); simpl; done.
Qed.

(** What a callee can do to the log when calls back only append to it. *)
Lemma run_callee_log {A} (t : Callee W A) (s : State W) :
  appends_profitably reentry →
  ∃ new, logs (run_callee s t).2 = logs s ++ new ∧ Forall reports_profit new.
Proof.
  intros Hgrow. revert s.
  induction t as [a w|sender c w k IH]; intros s; simpl.
  - exists []. by rewrite app_nil_r.
  - destruct (Hgrow sender c (set_world w s)) as (new1 & E1 & P1).
    unfold reenter. destruct (reentry sender c (set_world w s)) as [ok s'].
    simpl in E1.
    destruct (IH ok (world s') (resume s s')) as (new2 & E2 & P2).
    exists (new1 ++ new2). rewrite E2. simpl. rewrite E1, app_assoc.
    split; [done | by apply Forall_app].
Qed.

Lemma leg_log (s : State W) target data ok s1 :
  appends_profitably reentry →
  leg s target data = (ok, s1) →
  ∃ new, logs s1 = logs s ++ new ∧ Forall reports_profit new.
Proof.
  intros Hgrow. unfold leg.
  destruct (run_callee_log (raw_call (world s) (self s) target data) s Hgrow)
    as (new & E & P).
  destruct (run_callee s (raw_call (world s) (self s) target data))
    as [[] s']; simpl in *; intros [= _ <-]; [eauto|].
  exists []. by rewrite app_nil_r.
Qed.

(** What one transaction does to the log. *)
Lemma dispatch_log (s : State W) sender (c : Call) :
  appends_profitably reentry →
  ∃ new, logs (post (transact (dispatch sender c) s)) = logs s ++ new ∧
         Forall reports_profit new.
Proof.
  intros Hgrow.
  destruct c as [router flag|token buyDex sellDex buyData sellData amount
                 |token to amount|token spender amount]; simpl.
  - exists []. rewrite app_nil_r. split; [|constructor].
    exec_unfold. destruct (decide (owner s = sender)); done.
  - destruct (executeArbitrage_cases s sender token buyDex sellDex buyData
                sellData amount)
      as [_ [->|(s1 & s2 & profit & Hpos & H1 & H2 & ->)]].
    + exists []. rewrite app_nil_r. split; [done | constructor].
    + destruct (leg_log _ _ _ _ _ Hgrow H1) as (n1 & E1 & P1).
      destruct (leg_log _ _ _ _ _ Hgrow H2) as (n2 & E2 & P2).
      exists (n1 ++ n2 ++ [ArbitrageExecuted token buyDex sellDex amount
                             profit]).
      simpl. rewrite E2, E1, <- !app_assoc. split; [done|].
      repeat apply Forall_app_2; [done | done |]. by repeat constructor.
  - exec_unfold. destruct (decide (owner s = sender)); simpl.
    + destruct (run_callee_log
                  (erc20_transfer (world s) token (self s) to amount) s Hgrow)
        as (new & E & P).
      destruct (run_callee s
                  (erc20_transfer (world s) token (self s) to amount))
        as [[b|] s']; simpl in *.
      * exists (new ++ [FundsWithdrawn token to amount]).
        rewrite E, <- app_assoc. split; [done|].
        apply Forall_app_2; [done | by repeat constructor].
      * exists []. rewrite app_nil_r. split; [done | constructor].
    + exists []. rewrite app_nil_r. split; [done | constructor].
  - exec_unfold. destruct (decide (owner s = sender)); simpl.
    + destruct (run_callee_log
                  (erc20_approve (world s) token (self s) spender amount) s
                  Hgrow) as (new & E & P).
      destruct (run_callee s
                  (erc20_approve (world s) token (self s) spender amount))
        as [[b|] s']; simpl in *.
      * eauto.
      * exists []. rewrite app_nil_r. split; [done | constructor].
    + exists []. rewrite app_nil_r. split; [done | constructor].
Qed.


(** X4. The [amount] argument of [executeArbitrage] is only logged: two
    calls that differ in nothing but [amount] end alike, make the same
    external calls, leave the same chain and allow-list and log the same
    number of events. *)
Theorem executeArbitrage_amount_only_logged (s : State W) sender token buyDex
    sellDex buyData sellData amount amount' :
  let r := transact (executeArbitrage sender token buyDex sellDex buyData
                       sellData amount) s in
  let r' := transact (executeArbitrage sender token buyDex sellDex buyData
                        sellData amount') s in
  status r = status r' ∧ trace r = trace r' ∧
  world (post r) = world (post r') ∧
  approvedDexRouters (post r) = approvedDexRouters (post r') ∧
  length (logs (post r)) = length (logs (post r')).
Proof.
  exec_unfold.
  destruct (decide (owner s = sender)); simpl; [|done].
  destruct (approved s buyDex); simpl; [|done].
  destruct (approved s sellDex); simpl; [|done].
  destruct (erc20_balanceOf (world s) token (self s)) as [b0|]; simpl; [|done].
  destruct (leg s buyDex buyData) as [[] s1]; simpl; [|done].
  destruct (leg s1 sellDex sellData) as [[] s2]; simpl; [|done].
  destruct (erc20_balanceOf (world s2) token (self s2)) as [b1|]; simpl;
    [|done].
  destruct (b0 <? b1); simpl; [|done].
  destruct (b1 <? b0); simpl; [done|].
  by rewrite !length_app.
Qed.

(** X5. When the token does not answer the first balance query (its
    [balanceOf] reverts), the owner's [executeArbitrage] with approved
    routers reverts at once: neither router is called and the state is
    unchanged. *)
Theorem executeArbitrage_balance_query_reverts (s : State W) sender token
    buyDex sellDex buyData sellData amount :
  owner s = sender →
  approved s buyDex = true → approved s sellDex = true →
  erc20_balanceOf (world s) token (self s) = None →
  transact (executeArbitrage sender token buyDex sellDex buyData sellData
              amount) s
  = mkReceipt (Revert CalleeReverted) [CallBalanceOf token (self s)] s.
Proof.
  intros Ho Hb Hs H0. exec_unfold.
  destruct (decide (owner s = sender)); [|done]. simpl.
  rewrite Hb, Hs. simpl. by rewrite H0.
Qed.

(** X6. When the token's [transfer] reverts, the owner's [withdrawFunds]
    reverts with it: no [FundsWithdrawn] is logged and the state is
    unchanged, whatever the token did before it reverted. *)
Theorem withdrawFunds_transfer_reverts (s : State W) sender token to amount
    s' :
  sender = owner s →
  run_callee s (erc20_transfer (world s) token (self s) to amount)
  = (None, s') →
  transact (withdrawFunds sender token to amount) s
  = mkReceipt (Revert CalleeReverted) [CallTransfer token to amount] s.
Proof.
  intros -> Ht. exec_unfold.
  destruct (decide (owner s = owner s)); [|done]. simpl. by rewrite Ht.
Qed.

(** X7. [approveToken] asks for nothing but ownership and adds nothing of
    its own: whenever the owner calls and the token's [approve] does not
    revert, the call completes with that one external call, whether or not
    the spender is an approved router and whatever [approve] returned, and
    the state afterwards is exactly the one the token's call left; when
    the token does not call back, that is the state before with the chain
    the token left, so no event is logged and the allow-list is as it
    was. *)
Theorem approveToken_unconditional (s : State W) sender token spender amount
    returned s' :
  sender = owner s →
  run_callee s (erc20_approve (world s) token (self s) spender amount)
  = (Some returned, s') →
  transact (approveToken sender token spender amount) s
  = mkReceipt (Ok tt) [CallApprove token spender amount] s' ∧
  (∀ w, erc20_approve (world s) token (self s) spender amount
        = Return (Some returned) w →
        s' = mkState (self s) (owner s) (approvedDexRouters s) (logs s) w).
Proof.
  intros -> Ha. split.
  - exec_unfold. destruct (decide (owner s = owner s)); [|done]. simpl.
    by rewrite Ha.
  - intros w Hret. rewrite Hret in Ha. simpl in Ha. by injection Ha as <-.
Qed.

(** X8. Revoking works: once the owner has called
    [setDexRouterApproval(router, false)], every [executeArbitrage] that
    names the router as buy or sell venue reverts without a single
    external call. *)
Theorem revoked_router_is_refused (s : State W) router sender token other
    buyData sellData amount :
  let s1 := post (transact (setDexRouterApproval (owner s) router false) s) in
  let as_buy := transact (executeArbitrage sender token router other buyData
                            sellData amount) s1 in
  let as_sell := transact (executeArbitrage sender token other router buyData
                             sellData amount) s1 in
  (∃ f, status as_buy = Revert f) ∧ trace as_buy = [] ∧ post as_buy = s1 ∧
  (∃ f, status as_sell = Revert f) ∧ trace as_sell = [] ∧ post as_sell = s1.
Proof.
  cbv zeta. rewrite setDexRouterApproval_run. simpl.
  set (s1 := mkState _ _ _ _ _).
  assert (Hr : approved s1 router = false).
  { unfold approved, s1. simpl. by rewrite lookup_insert_eq. }
  exec_unfold.
  destruct (decide (owner s1 = sender)); simpl; [|eauto 10].
  rewrite Hr. simpl. split; [eauto|]. split; [done|]. split; [done|].
  destruct (approved s1 other); simpl; eauto 10.
Qed.

(** X9. Approvals of different routers do not interfere: the owner's two
    [setDexRouterApproval] calls for distinct routers give the same state
    in either order. *)
Theorem setDexRouterApproval_commutes (s : State W) r1 r2 flag1 flag2 :
  r1 ≠ r2 →
  run_calls [(owner s, SetDexRouterApproval r1 flag1);
             (owner s, SetDexRouterApproval r2 flag2)] s
  = run_calls [(owner s, SetDexRouterApproval r2 flag2);
               (owner s, SetDexRouterApproval r1 flag1)] s.
Proof.
  intros Hne. unfold run_calls. cbn [foldl fst snd dispatch].
  rewrite !setDexRouterApproval_run. cbn [post].
  set (a := mkState _ _ (<[r1:=flag1]> _) _ _).
  set (b := mkState _ _ (<[r2:=flag2]> _) _ _).
  change (owner s) with (owner a) at 1. rewrite setDexRouterApproval_run.
  change (owner s) with (owner b). rewrite setDexRouterApproval_run.
  subst a b. simpl. f_equal. by apply insert_insert_ne.
Qed.

(** X10. The last approval decides: after the owner sets a router's flag
    twice, the router reads the second flag and the state is the one the
    second call alone would have left. *)
Theorem setDexRouterApproval_last_wins (s : State W) router flag1 flag2 :
  let s2 := run_calls [(owner s, SetDexRouterApproval router flag1);
                       (owner s, SetDexRouterApproval router flag2)] s in
  s2 = run_calls [(owner s, SetDexRouterApproval router flag2)] s ∧
  approved s2 router = flag2.
Proof.
  intros s2.
  assert (Hs2 : s2 = mkState (self s) (owner s)
                       (<[router := flag2]> (approvedDexRouters s))
                       (logs s) (world s)).
  { subst s2. unfold run_calls. cbn [foldl fst snd dispatch].
    rewrite setDexRouterApproval_run. cbn [post].
    set (a := mkState _ _ _ _ _).
    change (owner s) with (owner a). rewrite setDexRouterApproval_run.
    subst a. cbn [self owner logs world approvedDexRouters].
    by rewrite insert_insert_eq. }
  rewrite Hs2. split.
  - unfold run_calls. cbn [foldl fst snd dispatch].
    by rewrite setDexRouterApproval_run.
  - unfold approved. cbn [approvedDexRouters]. by rewrite lookup_insert_eq.
Qed.

End SettlementFacts.

(** ** The log over whole histories *)

Section SettlementHistory.
Context {W : Type} {chain : Chain W}.

(** Calls back into the contract, to any depth, only append to the log. *)
Lemma contract_log (depth : nat) : appends_profitably (contract depth).
Proof.
  induction depth as [|d IH]; intros sender c s.
  - exists []. simpl. by rewrite app_nil_r.
  - simpl. apply (dispatch_log (reentry := contract d) s sender c IH).
Qed.

Lemma run_calls_log (depth : nat) (calls : list (address * Call))
    (s : State W) :
  ∃ new, logs (run_calls (reentry := contract depth) calls s) = logs s ++ new ∧
         Forall reports_profit new.
Proof.
  revert s. induction calls as [|[sender c] calls IH]; intros s.
  - exists []. rewrite app_nil_r. split; [done | constructor].
  - unfold run_calls in *. cbn [foldl fst snd].
    destruct (dispatch_log (reentry := contract depth) s sender c
                (contract_log depth)) as (new1 & E1 & P1).
    destruct (IH (post (transact (dispatch (reentry := contract depth)
                                    sender c) s)))
      as (new2 & E2 & P2).
    exists (new1 ++ new2). rewrite E2, E1, app_assoc.
    split; [done | by apply Forall_app].
Qed.

(** X1. The log is append-only: whatever sequence of calls is made, by
    whatever senders, and whatever the callees do while they have control,
    calls back into the contract to any depth included, the events logged
    before are still there, in the same order, at the head of the log. *)
Theorem run_calls_log_append_only (depth : nat)
    (calls : list (address * Call)) (s : State W) :
  logs s `prefix_of` logs (run_calls (reentry := contract depth) calls s).
Proof.
  destruct (run_calls_log depth calls s) as (new & E & _).
  rewrite E. by exists new.
Qed.

(** X2. Every [ArbitrageExecuted] event that any sequence of calls adds to
    the log reports a profit of at least one unit of the token, the events
    of calls back into the contract included. *)
Theorem run_calls_profit_positive (depth : nat)
    (calls : list (address * Call)) (s : State W) token buyDex sellDex amount
    profit :
  ArbitrageExecuted token buyDex sellDex amount profit
    ∈ logs (run_calls (reentry := contract depth) calls s) →
  ArbitrageExecuted token buyDex sellDex amount profit ∈ logs s ∨ 0 < profit.
Proof.
  destruct (run_calls_log depth calls s) as (new & -> & Hall).
  intros [Hin|Hin]%elem_of_app; [by left | right].
  rewrite Forall_forall in Hall. exact (Hall _ Hin).
Qed.

End SettlementHistory.

(** ** The contract on the mock chain *)

Section SettlementRuns.
Import Mock.

Lemma executeArbitrage_profit_invariant_witness :
  let r := transact (executeArbitrage 1 mock_token 20 21 (gain Byte.x05)
                       (lose Byte.x05) 5) deployed in
  status r = Revert (Error "No profit generated") ∧ post r = deployed.
Proof.
  destruct (executeArbitrage_profit_invariant deployed 1 mock_token 20 21
              (gain Byte.x05) (lose Byte.x05) 5 50
              (set_world (<[(mock_token, 7) := 55]> (world deployed)) deployed)
              (set_world (<[(mock_token, 7) := 50]>
                            (<[(mock_token, 7) := 55]> (world deployed)))
                 deployed) 50)
    as [Hle _]; try reflexivity.
  destruct (Hle ltac:(lia)) as (_ & Hpost & _ & Hwhy).
  split; [apply Hwhy; reflexivity | exact Hpost].
Defined.

(** Router 99 was never approved. *)
Lemma executeArbitrage_unapproved_router_witness :
  let r := transact (executeArbitrage 1 mock_token 99 21 (gain Byte.x09)
                       (lose Byte.x04) 5) deployed in
  status r = Revert (Error "Buy DEX not approved") ∧
  post r = deployed ∧ trace r = [].
Proof.
  destruct (executeArbitrage_unapproved_router deployed 1 mock_token 99 21
              (gain Byte.x09) (lose Byte.x04) 5)
    as (_ & Hpost & Htrace & Hwhy & _); [left; reflexivity|].
  split; [apply Hwhy; reflexivity | split; assumption].
Defined.

(** The buy leg fails: the 50 units are still there. *)
Lemma executeArbitrage_leg_failure_atomic_witness :
  let r := transact (executeArbitrage 1 mock_token 20 21 failing
                       (gain Byte.x09) 5) deployed in
  status r = Revert (Error "Buy transaction failed") ∧
  trace r = [CallBalanceOf mock_token 7; CallRaw 20 failing] ∧
  post r = deployed ∧
  erc20_balanceOf (world (post r)) mock_token (self (post r)) = Some 50.
Proof.
  apply (executeArbitrage_leg_failure_atomic deployed 1 mock_token 20 21
           failing (gain Byte.x09) 5 50 false deployed true
           (set_world (<[(mock_token, 7) := 59]> (world deployed)) deployed));
    reflexivity.
Defined.

(** Buying 9 and giving back 4 completes with a profit of 5. *)
Lemma executeArbitrage_emits_realized_profit_witness :
  let r := transact (executeArbitrage 1 mock_token 20 21 (gain Byte.x09)
                       (lose Byte.x04) 5) deployed in
  ∃ initialBalance s1 s2 finalBalance,
    erc20_balanceOf (world deployed) mock_token 7 = Some initialBalance ∧
    leg deployed 20 (gain Byte.x09) = (true, s1) ∧
    leg s1 21 (lose Byte.x04) = (true, s2) ∧
    erc20_balanceOf (world s2) mock_token 7 = Some finalBalance ∧
    initialBalance < finalBalance ∧
    logs (post r)
    = logs s2 ++ [ArbitrageExecuted mock_token 20 21 5
                    (finalBalance - initialBalance)] ∧
    (∀ ok1 w1 ok2 w2,
       raw_call (world deployed) 7 20 (gain Byte.x09) = Return ok1 w1 →
       raw_call w1 7 21 (lose Byte.x04) = Return ok2 w2 →
       logs (post r)
       = [] ++ [ArbitrageExecuted mock_token 20 21 5
                  (finalBalance - initialBalance)]).
Proof.
  apply (executeArbitrage_emits_realized_profit deployed 1 mock_token 20 21
           (gain Byte.x09) (lose Byte.x04) 5).
  reflexivity.
Defined.

Example executeArbitrage_profit_5 :
  logs (post (transact (executeArbitrage 1 mock_token 20 21 (gain Byte.x09)
                          (lose Byte.x04) 5) deployed))
  = [ArbitrageExecuted mock_token 20 21 5 5].
Proof. reflexivity. Qed.

(** Account 2 is not the owner. *)
Lemma entry_points_owner_only_witness :
  transact (setDexRouterApproval 2 99 true) deployed
  = mkReceipt (Revert (OwnableUnauthorizedAccount 2)) [] deployed ∧
  transact (withdrawFunds 2 mock_token 2 50) deployed
  = mkReceipt (Revert (OwnableUnauthorizedAccount 2)) [] deployed.
Proof.
  destruct (entry_points_owner_only deployed 2) as (Hset & _ & Hwd & _).
  - simpl. lia.
  - split; [apply Hset | apply Hwd].
Defined.

Lemma setDexRouterApproval_idempotent_witness :
  let once := post (transact (setDexRouterApproval 1 30 true) deployed) in
  post (transact (setDexRouterApproval 1 30 true) once) = once ∧
  approved once 30 = true.
Proof.
  destruct (setDexRouterApproval_idempotent deployed 1 30 true eq_refl)
    as (Hsame & Hread & _).
  split; assumption.
Defined.

(** Withdrawing 80 units out of 50: the token answers [false], nothing
    moves, and [FundsWithdrawn] is logged all the same. *)
Lemma withdrawFunds_ignores_transfer_result_witness :
  let r := transact (withdrawFunds 1 mock_token 1 80) deployed in
  erc20_transfer (world deployed) mock_token 7 1 80
  = Return (Some false) (world deployed) ∧
  status r = Ok tt ∧
  logs (post r) = [FundsWithdrawn mock_token 1 80] ∧
  world (post r) = world deployed.
Proof.
  split; [reflexivity|].
  destruct (withdrawFunds_ignores_transfer_result deployed 1 mock_token 1 80
              false deployed)
    as (Hst & _ & Hlog & Hw & _); [reflexivity | reflexivity |].
  repeat split; assumption.
Defined.

(** One profitable settlement among a rejected call and a withdrawal. *)
Lemma run_calls_profit_positive_witness :
  let calls := [(2, ExecuteArbitrage mock_token 20 21 (gain Byte.x09)
                      (lose Byte.x04) 5);
                (1, ExecuteArbitrage mock_token 20 21 (gain Byte.x09)
                      (lose Byte.x04) 5);
                (1, WithdrawFunds mock_token 1 10)] in
  logs (run_calls (reentry := contract 4) calls deployed)
  = [ArbitrageExecuted mock_token 20 21 5 5; FundsWithdrawn mock_token 1 10] ∧
  (ArbitrageExecuted mock_token 20 21 5 5 ∈ logs deployed ∨ 0 < 5).
Proof.
  split; [reflexivity|].
  apply (run_calls_profit_positive 4
           [(2, ExecuteArbitrage mock_token 20 21 (gain Byte.x09)
                  (lose Byte.x04) 5);
            (1, ExecuteArbitrage mock_token 20 21 (gain Byte.x09)
                  (lose Byte.x04) 5);
            (1, WithdrawFunds mock_token 1 10)] deployed).
  change (ArbitrageExecuted mock_token 20 21 5 5
          ∈ [ArbitrageExecuted mock_token 20 21 5 5;
             FundsWithdrawn mock_token 1 10]).
  apply elem_of_cons. by left.
Defined.

(** Router 99 is not approved, and the allowance goes through. *)
Lemma approveToken_unconditional_witness :
  approved deployed 99 = false ∧
  transact (approveToken 1 mock_token 99 1000) deployed
  = mkReceipt (Ok tt) [CallApprove mock_token 99 1000] deployed.
Proof.
  split; [reflexivity|].
  apply (approveToken_unconditional deployed 1 mock_token 99 1000 true
           deployed); reflexivity.
Defined.

Lemma setDexRouterApproval_commutes_witness :
  run_calls [(1, SetDexRouterApproval 30 true);
             (1, SetDexRouterApproval 21 false)] deployed
  = run_calls [(1, SetDexRouterApproval 21 false);
               (1, SetDexRouterApproval 30 true)] deployed.
Proof.
  apply (setDexRouterApproval_commutes deployed 30 21 true false). lia.
Defined.

End SettlementRuns.

(** ** The contract on the chain without tokens *)

Section SettlementStranded.
Import Inert.

Lemma executeArbitrage_balance_query_reverts_witness :
  transact (executeArbitrage 1 100 20 21 [] [] 5) stranded
  = mkReceipt (Revert CalleeReverted) [CallBalanceOf 100 7] stranded.
Proof.
  apply (executeArbitrage_balance_query_reverts stranded 1 100 20 21 [] [] 5);
    reflexivity.
Defined.

Lemma withdrawFunds_transfer_reverts_witness :
  transact (withdrawFunds 1 100 1 50) stranded
  = mkReceipt (Revert CalleeReverted) [CallTransfer 100 1 50] stranded.
Proof.
  apply (withdrawFunds_transfer_reverts stranded 1 100 1 50 stranded);
    reflexivity.
Defined.

End SettlementStranded.

(** ** The contract owned by one of its routers *)

Section SettlementReentered.
Import Reentrant.

(** C4 as first stated (a completed call appends exactly one event) fails
    here.  The owner, router 20, settles through itself: its buy leg credits 9
    units and calls [executeArbitrage] back, which completes with a profit
    of 3 and logs it; the sell leg takes 4; the outer call finds 58 against
    50 and logs a profit of 8.  One completed call has appended two
    [ArbitrageExecuted] events, so what it appended is not a single
    event. *)
Lemma executeArbitrage_reentered_logs_twice :
  let r := transact (executeArbitrage 20 100 20 21 [Byte.x03; Byte.x09]
                       [Byte.x02; Byte.x04] 5) owned_by_router in
  status r = Ok tt ∧
  logs (post r)
  = logs owned_by_router ++ [ArbitrageExecuted 100 21 21 1 3;
                             ArbitrageExecuted 100 20 21 5 8] ∧
  ¬ (∃ profit, logs (post r)
               = logs owned_by_router
                 ++ [ArbitrageExecuted 100 20 21 5 profit]).
Proof.
  split; [reflexivity|]. split; [reflexivity|].
  intros [profit Habs]. vm_compute in Habs. discriminate Habs.
Qed.

(** The same run, seen through the log of the whole history: both events
    report a profit. *)
Example reentered_history :
  logs (run_calls (reentry := contract 4)
          [(20, ExecuteArbitrage 100 20 21 [Byte.x03; Byte.x09]
                  [Byte.x02; Byte.x04] 5)] owned_by_router)
  = [ArbitrageExecuted 100 21 21 1 3; ArbitrageExecuted 100 20 21 5 8].
Proof. reflexivity. Qed.

End SettlementReentered.

(** * Properties of the dashboards *)

Section DashboardFacts.
Import Dashboard.

Lemma slice_front {A} (l : list A) (n : Z) :
  0 ≤ n → slice l 0 (Some n) = take (Z.to_nat n) l.
Proof.
  intros Hn. unfold slice.
  destruct (n <? 0) eqn:Hneg; [lia|].
  change (0 <? 0) with false. cbv iota.
  replace (Z.to_nat (0 `min` Z.of_nat (length l))) with 0%nat by lia.
  rewrite drop_0.
  destruct (decide (n ≤ Z.of_nat (length l))).
  - f_equal. lia.
  - rewrite !take_ge; [done | lia | lia].
Qed.

Lemma slice_back {A} (l : list A) (n : Z) :
  0 < n → slice l (- n) None = newest (Z.to_nat n) l.
Proof.
  intros Hn. unfold slice, newest.
  destruct (- n <? 0) eqn:Hneg; [|lia].
  rewrite take_ge by (rewrite length_drop; lia).
  f_equal. lia.
Qed.

Lemma slice_from {A} (l : list A) (n : Z) :
  0 ≤ n ≤ Z.of_nat (length l) →
  slice l (Z.of_nat (length l) - n) None = newest (Z.to_nat n) l.
Proof.
  intros Hn. unfold slice, newest.
  destruct (Z.of_nat (length l) - n <? 0) eqn:Hneg; [lia|].
  rewrite take_ge by (rewrite length_drop; lia).
  f_equal. lia.
Qed.

Lemma newest_all {A} (n : nat) (l : list A) :
  (length l ≤ n)%nat → newest n l = l.
Proof.
  intros Hle. unfold newest.
  replace (length l - n)%nat with 0%nat by lia. apply drop_0.
Qed.

(** The guarded slices of [pages/index.js] are the bare slices of
    [page.jsx]. *)
Lemma keep_last_20 {A} (l : list A) :
  (if 20 <? Z.of_nat (length l) then slice l (Z.of_nat (length l) - 20) None
   else l) = slice l (-20) None.
Proof.
  replace (slice l (-20) None) with (newest 20 l)
    by (symmetry; apply (slice_back l 20); lia).
  destruct (20 <? Z.of_nat (length l)) eqn:Hlen.
  - apply (slice_from l 20). lia.
  - symmetry. apply newest_all. lia.
Qed.

Lemma keep_first_10 {A} (l : list A) :
  (if 10 <? Z.of_nat (length l) then slice l 0 (Some 10) else l)
  = slice l 0 (Some 10).
Proof.
  destruct (10 <? Z.of_nat (length l)) eqn:Hlen; [done|].
  rewrite slice_front by lia. symmetry. apply take_ge. lia.
Qed.

Ltac handler_unfold :=
  unfold Index.onmessage, Page.onmessage, when, or_throw, setMarketData,
    setPriceHistory, setOpportunities, setTrades, mbind, mret, Handler_bind,
    Handler_ret.

Lemma onmessage_same (event : MessageEvent) (st : State) :
  Index.onmessage event st = Page.onmessage event st.
Proof.
  handler_unfold.
  destruct (parsed event) as [data|]; [|done].
  destruct (get data "type") as [type|]; [|done].
  destruct (strict_eq type "market_update");
    destruct (strict_eq type "arbitrage_opportunity");
    destruct (strict_eq type "trade_execution");
    destruct (get data "data") as [payload|]; cbv beta iota zeta; try done;
    try (destruct (get payload selectedPair) as [entry|];
         cbv beta iota zeta; try done;
         destruct (ToBoolean entry); cbv beta iota zeta; try done;
         destruct (get entry "prices") as [prices|];
         cbv beta iota zeta; try done);
    rewrite ?keep_last_20, ?keep_first_10; done.
Qed.

Lemma strict_eq_true (v : value) (literal : string) :
  strict_eq v literal = true → v = VStr literal.
Proof.
  destruct v; simpl; try discriminate.
  intros Heq. apply String.eqb_eq in Heq. by subst.
Qed.

(** One message, seen from outside: each list takes the payload addressed
    to it and is cut back to its bound. *)
Lemma page_step (event : MessageEvent) (st : State) :
  (Page.onmessage event st).1
  = mkDash
      (match payload_of "arbitrage_opportunity" event with
       | Some d => take 10 (d :: opportunities st)
       | None => opportunities st
       end)
      (match payload_of "trade_execution" event with
       | Some d => take 10 (d :: trades st)
       | None => trades st
       end)
      (match payload_of "market_update" event with
       | Some d => d
       | None => marketData st
       end)
      (match point_of event with
       | Some p => newest 20 (priceHistory st ++ [p])
       | None => priceHistory st
       end).
Proof.
  unfold point_of, payload_of. handler_unfold.
  destruct st as [opps trs md ph].
  destruct (parsed event) as [data|]; [|done]. simpl.
  destruct (get data "type") as [type|]; [|done]. simpl.
  destruct (strict_eq type "market_update") eqn:Hm.
  - apply strict_eq_true in Hm. subst type. simpl.
    destruct (get data "data") as [payload|]; [|done]. simpl.
    destruct (get payload selectedPair) as [entry|]; [|done]. simpl.
    destruct (ToBoolean entry); [|done]. simpl.
    destruct (get entry "prices") as [prices|]; [|done]. simpl.
    change (-20) with (- (20)). by rewrite slice_back by lia.
  - destruct (strict_eq type "arbitrage_opportunity") eqn:Ha.
    + apply strict_eq_true in Ha. subst type. simpl.
      destruct (get data "data") as [payload|]; [|done]. simpl.
      by rewrite slice_front by lia.
    + destruct (strict_eq type "trade_execution") eqn:Ht; [|done].
      destruct (get data "data") as [payload|]; [|done]. simpl.
      by rewrite slice_front by lia.
Qed.

Lemma take_app_take {A} (n : nat) (a b : list A) :
  take n (a ++ take n b) = take n (a ++ b).
Proof.
  rewrite !take_app, take_take. do 2 f_equal. lia.
Qed.

Lemma newest_length {A} (n : nat) (l : list A) :
  (length (newest n l) ≤ n)%nat.
Proof. unfold newest. rewrite length_drop. lia. Qed.

Lemma newest_app_newest {A} (n : nat) (a b : list A) :
  newest n (newest n a ++ b) = newest n (a ++ b).
Proof.
  destruct (decide (length a ≤ n)%nat) as [Hle|Hgt].
  - by rewrite (newest_all n a).
  - unfold newest at 1 3. rewrite !length_app.
    unfold newest. rewrite length_drop.
    replace (length a + length b - n)%nat
      with ((length a - n) + length b)%nat by lia.
    rewrite <- drop_drop.
    rewrite (drop_app_le a b) by lia.
    f_equal. lia.
Qed.

(** The lists a run ends with, from a state within the bounds. *)
Lemma run_page_lists (events : list MessageEvent) (st : State) :
  (length (opportunities st) ≤ 10)%nat →
  (length (trades st) ≤ 10)%nat →
  (length (priceHistory st) ≤ 20)%nat →
  let final := run Page.onmessage events st in
  opportunities final
  = take 10 (rev (omap (payload_of "arbitrage_opportunity") events)
             ++ opportunities st) ∧
  trades final
  = take 10 (rev (omap (payload_of "trade_execution") events) ++ trades st) ∧
  priceHistory final
  = newest 20 (priceHistory st ++ omap point_of events).
Proof.
  revert st. induction events as [|event events IH]; intros st Ho Ht Hp.
  - simpl. rewrite app_nil_r.
    rewrite !take_ge by done. by rewrite newest_all.
  - unfold run in *. cbn [foldl].
    change (omap ?f (event :: events))
      with (match f event with
            | Some d => d :: omap f events
            | None => omap f events
            end).
    set (st1 := (Page.onmessage event st).1).
    assert (Hst1 : st1 = (Page.onmessage event st).1) by done.
    rewrite page_step in Hst1.
    destruct (IH st1) as (IHo & IHt & IHp).
    + rewrite Hst1. cbn [opportunities trades priceHistory]. destruct (payload_of _ event); [|done].
      rewrite length_take. lia.
    + rewrite Hst1. cbn [opportunities trades priceHistory]. destruct (payload_of "trade_execution" event);
        [|done].
      rewrite length_take. lia.
    + rewrite Hst1. cbn [opportunities trades priceHistory]. destruct (point_of event); [|done].
      apply newest_length.
    + cbv zeta in *. rewrite IHo, IHt, IHp. rewrite Hst1. cbn [opportunities trades priceHistory].
      repeat split.
      * destruct (payload_of "arbitrage_opportunity" event); [|done].
        cbn [rev]. rewrite <- app_assoc. apply take_app_take.
      * destruct (payload_of "trade_execution" event); [|done].
        cbn [rev]. rewrite <- app_assoc. apply take_app_take.
      * destruct (point_of event); [|done].
        rewrite newest_app_newest. by rewrite <- app_assoc.
Qed.

(** C10. The two handlers agree: from any state and for any sequence of
    incoming messages, [pages/index.js] and [frontend/app/page.jsx] end
    with the same [marketData], [opportunities], [trades] and
    [priceHistory].  From the initial state both hold the 10 newest
    opportunities and trades, newest first, and the 20 newest chart
    points, oldest first. *)
Theorem dashboards_agree (events : list MessageEvent) :
  (∀ st, run Index.onmessage events st = run Page.onmessage events st) ∧
  let final := run Index.onmessage events initial in
  final = run Page.onmessage events initial ∧
  opportunities final
  = take 10 (rev (omap (payload_of "arbitrage_opportunity") events)) ∧
  trades final
  = take 10 (rev (omap (payload_of "trade_execution") events)) ∧
  priceHistory final = newest 20 (omap point_of events) ∧
  (length (opportunities final) ≤ 10)%nat ∧
  (length (trades final) ≤ 10)%nat ∧
  (length (priceHistory final) ≤ 20)%nat.
Proof.
  assert (Hsame : ∀ st,
            run Index.onmessage events st = run Page.onmessage events st).
  { induction events as [|event events IH]; intros st; [done|].
    unfold run in *. cbn [foldl]. rewrite onmessage_same. apply IH. }
  split; [exact Hsame|].
  cbv zeta. rewrite Hsame. split; [done|].
  destruct (run_page_lists events initial) as (Ho & Ht & Hp);
    [simpl; lia ..|].
  cbv zeta in *. simpl in Ho, Ht, Hp. rewrite app_nil_r in Ho, Ht.
  rewrite Ho, Ht, Hp.
  repeat split; rewrite ?length_take; try lia. apply newest_length.
Qed.

(** Twelve opportunities in a row: both dashboards show the last ten. *)
Example twelve_opportunities :
  let events := map opportunity_message (seqZ 1 12) in
  opportunities (run Index.onmessage events initial)
  = map (λ n, VObj [("id", VNum n)]) (rev (seqZ 3 10)) ∧
  opportunities (run Page.onmessage events initial)
  = map (λ n, VObj [("id", VNum n)]) (rev (seqZ 3 10)).
Proof. split; vm_compute; reflexivity. Qed.

(** Twenty-two market updates: both charts hold the last twenty points,
    oldest first, and the market data of the last update. *)
Example twenty_two_updates :
  let events := map market_message (seqZ 1 22) in
  let final := run Index.onmessage events initial in
  final = run Page.onmessage events initial ∧
  priceHistory final
  = map (λ n, mkPoint "12:00:00" (VObj [("venue", VNum n)])) (seqZ 3 20) ∧
  marketData final
  = VObj [("BTC/USDT", VObj [("prices", VObj [("venue", VNum 22)])])].
Proof. cbv zeta. split; [|split]; vm_compute; reflexivity. Qed.

(** A message that is not JSON, a [null], and a [market_update] without
    data: the first two set nothing, the third sets [marketData] to
    [undefined] before it throws. *)
Example malformed_messages :
  run Page.onmessage [mkEvent None "12:00:00"] initial = initial ∧
  run Page.onmessage [mkEvent (Some VNull) "12:00:00"] initial = initial ∧
  Page.onmessage
    (mkEvent (Some (VObj [("type", VStr "market_update")])) "12:00:00") initial
  = (mkDash [] [] VUndefined [], None).
Proof. split; [|split]; vm_compute; reflexivity. Qed.

(** ** Single messages *)

Lemma strict_eq_false (v : value) (literal : string) :
  v ≠ VStr literal → strict_eq v literal = false.
Proof.
  intros Hne. destruct (strict_eq v literal) eqn:Heq; [|done].
  by apply strict_eq_true in Heq.
Qed.

(** X11. A message whose [type] is none of the three the dashboards know
    (a reply to the keep-alive, say) sets nothing and throws nothing, in
    both handlers. *)
Theorem onmessage_ignores_other_types (event : MessageEvent) (st : State)
    data type :
  parsed event = Some data →
  get data "type" = Some type →
  type ≠ VStr "market_update" →
  type ≠ VStr "arbitrage_opportunity" →
  type ≠ VStr "trade_execution" →
  Index.onmessage event st = (st, Some tt) ∧
  Page.onmessage event st = (st, Some tt).
Proof.
  intros Hp Ht Hm Ha He. rewrite <- onmessage_same. split; [|idtac];
    handler_unfold; rewrite Hp, Ht;
    rewrite (strict_eq_false _ _ Hm), (strict_eq_false _ _ Ha),
      (strict_eq_false _ _ He); done.
Qed.

(** X12. A [market_update] without usable data ([data] missing or [null])
    still overwrites [marketData], with [undefined] or [null], before the
    handler throws; the lists are untouched.  Both handlers do this. *)
Theorem onmessage_market_update_without_data (event : MessageEvent)
    (st : State) data payload :
  parsed event = Some data →
  get data "type" = Some (VStr "market_update") →
  get data "data" = Some payload →
  payload = VUndefined ∨ payload = VNull →
  Index.onmessage event st
  = (mkDash (opportunities st) (trades st) payload (priceHistory st), None) ∧
  Page.onmessage event st
  = (mkDash (opportunities st) (trades st) payload (priceHistory st), None).
Proof.
  intros Hp Ht Hd Hpay. rewrite <- onmessage_same. split; [|idtac];
    handler_unfold; rewrite Hp, Ht; simpl; rewrite Hd;
    by destruct Hpay as [-> | ->].
Qed.

(** X13. A [market_update] that does not carry the selected pair (or
    carries a falsy entry for it) replaces [marketData] wholesale and
    leaves the chart history as it was, in both handlers. *)
Theorem onmessage_market_update_other_pair (event : MessageEvent)
    (st : State) data payload entry :
  parsed event = Some data →
  get data "type" = Some (VStr "market_update") →
  get data "data" = Some payload →
  get payload selectedPair = Some entry →
  ToBoolean entry = false →
  Index.onmessage event st
  = (mkDash (opportunities st) (trades st) payload (priceHistory st),
     Some tt) ∧
  Page.onmessage event st
  = (mkDash (opportunities st) (trades st) payload (priceHistory st),
     Some tt).
Proof.
  intros Hp Ht Hd He Hfalsy. rewrite <- onmessage_same. split; [|idtac];
    handler_unfold; rewrite Hp, Ht; simpl; rewrite Hd; simpl;
    rewrite He; simpl; by rewrite Hfalsy.
Qed.

(** X14. Whatever the opportunity list held before, however long (a list
    loaded over HTTP, say), after one [arbitrage_opportunity] message it
    holds the new payload first, then the first nine of the old entries,
    and nothing else of the state has changed; the same for trades.  Both
    handlers do this. *)
Theorem onmessage_pushes_and_truncates (event : MessageEvent) (st : State)
    data payload :
  parsed event = Some data →
  get data "data" = Some payload →
  (get data "type" = Some (VStr "arbitrage_opportunity") →
   Index.onmessage event st
   = (mkDash (payload :: take 9 (opportunities st)) (trades st)
        (marketData st) (priceHistory st), Some tt) ∧
   Page.onmessage event st = Index.onmessage event st) ∧
  (get data "type" = Some (VStr "trade_execution") →
   Index.onmessage event st
   = (mkDash (opportunities st) (payload :: take 9 (trades st))
        (marketData st) (priceHistory st), Some tt) ∧
   Page.onmessage event st = Index.onmessage event st).
Proof.
  intros Hp Hd.
  split; intros Ht; (split; [|by rewrite onmessage_same]);
    rewrite onmessage_same; handler_unfold; rewrite Hp, Ht; simpl;
    rewrite Hd; simpl; destruct st as [opps trs md ph]; simpl;
    by rewrite (slice_front _ 10) by lia.
Qed.

(** ** Loading over HTTP *)

Lemma key_present (apiKey : string) :
  apiKey ≠ EmptyString → String.eqb apiKey EmptyString = false.
Proof. intros Hne. by apply String.eqb_neq. Qed.

(** X15. When all three endpoints answer [ok] with a JSON body, the two
    dashboards load the same thing: the same three requests in the same
    order, and the same three setter calls with the same values. *)
Theorem fetchData_agree_on_success (apiKey : string)
    (server : Request → Fetched) oppsData tradesData marketData :
  apiKey ≠ EmptyString →
  server (api_request apiKey "opportunities") = Response true (Some oppsData) →
  server (api_request apiKey "trades") = Response true (Some tradesData) →
  server (api_request apiKey "market-data") = Response true (Some marketData) →
  state_changes (IndexJs.fetchData apiKey server)
  = [SetOpportunitiesTo oppsData; SetTradesTo tradesData;
     SetMarketDataTo marketData] ∧
  state_changes (PageJsx.fetchData apiKey server)
  = state_changes (IndexJs.fetchData apiKey server) ∧
  requests (PageJsx.fetchData apiKey server)
  = requests (IndexJs.fetchData apiKey server).
Proof.
  intros Hkey H1 H2 H3.
  unfold IndexJs.fetchData, PageJsx.fetchData, IndexJs.fetch_and_set.
  rewrite (key_present _ Hkey). cbv zeta. rewrite H1, H2, H3. done.
Qed.

(** X16. When the server turns the key down (every endpoint answers, none
    with [ok]), [pages/index.js] sets nothing, while
    [frontend/app/page.jsx] sets opportunities, trades and market data to
    the empty array. *)
Theorem fetchData_key_refused (apiKey : string) (server : Request → Fetched) :
  apiKey ≠ EmptyString →
  (∀ q, ∃ json, server q = Response false json) →
  state_changes (IndexJs.fetchData apiKey server) = [] ∧
  state_changes (PageJsx.fetchData apiKey server)
  = [SetOpportunitiesTo (VArr []); SetTradesTo (VArr []);
     SetMarketDataTo (VArr [])].
Proof.
  intros Hkey Hno.
  unfold IndexJs.fetchData, PageJsx.fetchData, IndexJs.fetch_and_set.
  rewrite (key_present _ Hkey). cbv zeta.
  destruct (Hno (api_request apiKey "opportunities")) as [j1 ->].
  destruct (Hno (api_request apiKey "trades")) as [j2 ->].
  destruct (Hno (api_request apiKey "market-data")) as [j3 ->].
  done.
Qed.

(** X17. [frontend/app/page.jsx] loads all or nothing: it always issues
    the three requests, and when any of them fails it sets no state and
    reports the error. *)
Theorem fetchData_page_all_or_nothing (apiKey : string)
    (server : Request → Fetched) :
  apiKey ≠ EmptyString →
  fails server (api_request apiKey "opportunities") ∨
  fails server (api_request apiKey "trades") ∨
  fails server (api_request apiKey "market-data") →
  PageJsx.fetchData apiKey server
  = [Fetch (api_request apiKey "opportunities");
     Fetch (api_request apiKey "trades");
     Fetch (api_request apiKey "market-data");
     ConsoleError "Error fetching data:"].
Proof.
  intros Hkey Hfail. unfold PageJsx.fetchData, fails in *.
  rewrite (key_present _ Hkey). cbv zeta.
  destruct (server (api_request apiKey "opportunities")) as [|[] [v1|]];
    destruct (server (api_request apiKey "trades")) as [|[] [v2|]];
    destruct (server (api_request apiKey "market-data")) as [|[] [v3|]];
    simpl; try done; intuition discriminate.
Qed.

(** X18. [pages/index.js] loads step by step: what it has set before a
    failure stays set, and it asks for nothing after one.  With
    opportunities served and the trades request failing, it sets the
    opportunities and never requests the market data. *)
Theorem fetchData_index_stops_at_failure (apiKey : string)
    (server : Request → Fetched) oppsData :
  apiKey ≠ EmptyString →
  server (api_request apiKey "opportunities") = Response true (Some oppsData) →
  fails server (api_request apiKey "trades") →
  IndexJs.fetchData apiKey server
  = [Fetch (api_request apiKey "opportunities");
     SetOpportunitiesTo oppsData;
     Fetch (api_request apiKey "trades");
     ConsoleError "Error fetching data:"].
Proof.
  intros Hkey H1 Hfail.
  unfold IndexJs.fetchData, IndexJs.fetch_and_set.
  rewrite (key_present _ Hkey), H1. by destruct Hfail as [-> | ->].
Qed.

(** X19. [pages/index.js] never asks for more than [page.jsx] does, and
    never sets a piece of state that the server did not answer [ok] with a
    body for: its requests are an initial segment of the three, and each
    of its setter calls carries the body its endpoint served. *)
Theorem fetchData_index_sets_only_served (apiKey : string)
    (server : Request → Fetched) :
  requests (IndexJs.fetchData apiKey server)
  `prefix_of` [api_request apiKey "opportunities";
               api_request apiKey "trades";
               api_request apiKey "market-data"] ∧
  (∀ v, SetOpportunitiesTo v ∈ IndexJs.fetchData apiKey server →
        server (api_request apiKey "opportunities") = Response true (Some v)) ∧
  (∀ v, SetTradesTo v ∈ IndexJs.fetchData apiKey server →
        server (api_request apiKey "trades") = Response true (Some v)) ∧
  (∀ v, SetMarketDataTo v ∈ IndexJs.fetchData apiKey server →
        server (api_request apiKey "market-data") = Response true (Some v)).
Proof.
  unfold IndexJs.fetchData, IndexJs.fetch_and_set.
  destruct (String.eqb apiKey EmptyString).
  { split; [apply prefix_nil|]. repeat split; intros v Hin; inversion Hin. }
  destruct (server (api_request apiKey "opportunities")) as [|[] [v1|]];
    destruct (server (api_request apiKey "trades")) as [|[] [v2|]];
    destruct (server (api_request apiKey "market-data")) as [|[] [v3|]];
    (split; [by (simpl; repeat (apply prefix_cons); apply prefix_nil) |]);
    repeat split; intros v Hin;
    repeat (apply elem_of_cons in Hin as [Hin|Hin]; [by inversion Hin|]);
    by apply elem_of_nil in Hin.
Qed.

(** ** Chart colours *)

(** X20. The chart has five colours and hands them out in a cycle: every
    dataset index gets one, and two indices get the same colour exactly
    when they differ by a multiple of five. *)
Theorem getColor_cycles (i j : Z) (alpha : string) :
  0 ≤ i → 0 ≤ j →
  is_Some (getColor i alpha) ∧
  (getColor i alpha = getColor j alpha ↔ i `mod` 5 = j `mod` 5).
Proof.
  intros Hi Hj. unfold getColor.
  change (Z.of_nat (length (colors alpha))) with 5.
  rewrite !Z.rem_mod_nonneg by lia.
  pose proof (Z.mod_pos_bound i 5 ltac:(lia)) as Bi.
  pose proof (Z.mod_pos_bound j 5 ltac:(lia)) as Bj.
  destruct (i `mod` 5 <? 0) eqn:Ni; [lia|].
  destruct (j `mod` 5 <? 0) eqn:Nj; [lia|].
  assert (Ci : i `mod` 5 = 0 ∨ i `mod` 5 = 1 ∨ i `mod` 5 = 2 ∨
               i `mod` 5 = 3 ∨ i `mod` 5 = 4) by lia.
  assert (Cj : j `mod` 5 = 0 ∨ j `mod` 5 = 1 ∨ j `mod` 5 = 2 ∨
               j `mod` 5 = 3 ∨ j `mod` 5 = 4) by lia.
  destruct Ci as [-> | [-> | [-> | [-> | ->]]]];
    destruct Cj as [-> | [-> | [-> | [-> | ->]]]];
    (split; [by eexists |]); split; simpl; try done; try lia;
    intros Heq; by inversion Heq.
Qed.

(** ** The handlers and loaders at work *)

Lemma onmessage_ignores_other_types_witness :
  let event := mkEvent (Some (VObj [("type", VStr "pong")])) "12:00:00" in
  Index.onmessage event initial = (initial, Some tt) ∧
  Page.onmessage event initial = (initial, Some tt).
Proof.
  apply (onmessage_ignores_other_types _ initial
           (VObj [("type", VStr "pong")]) (VStr "pong"));
    [reflexivity | reflexivity | discriminate ..].
Defined.

Lemma onmessage_market_update_without_data_witness :
  let event := mkEvent (Some (VObj [("type", VStr "market_update")]))
                 "12:00:00" in
  Index.onmessage event initial = (mkDash [] [] VUndefined [], None) ∧
  Page.onmessage event initial = (mkDash [] [] VUndefined [], None).
Proof.
  apply (onmessage_market_update_without_data _ initial
           (VObj [("type", VStr "market_update")]) VUndefined);
    [reflexivity | reflexivity | reflexivity | by left].
Defined.

Lemma onmessage_market_update_other_pair_witness :
  let payload := VObj [("ETH/USDT", VObj [("prices", VObj [])])] in
  let event := mkEvent (Some (VObj [("type", VStr "market_update");
                                    ("data", payload)])) "12:00:00" in
  Index.onmessage event initial = (mkDash [] [] payload [], Some tt) ∧
  Page.onmessage event initial = (mkDash [] [] payload [], Some tt).
Proof.
  intros payload event.
  apply (onmessage_market_update_other_pair event initial
           (VObj [("type", VStr "market_update"); ("data", payload)])
           payload VUndefined); reflexivity.
Defined.

(** Twelve opportunities were loaded over HTTP; one more arrives. *)
Lemma onmessage_pushes_and_truncates_witness :
  let loaded := mkDash (map VNum (seqZ 1 12)) [] (VObj []) [] in
  Index.onmessage (opportunity_message 13) loaded
  = (mkDash (VObj [("id", VNum 13)] :: map VNum (seqZ 1 9)) [] (VObj []) [],
     Some tt) ∧
  Page.onmessage (opportunity_message 13) loaded
  = Index.onmessage (opportunity_message 13) loaded.
Proof.
  intros loaded.
  destruct (onmessage_pushes_and_truncates (opportunity_message 13) loaded
              (VObj [("type", VStr "arbitrage_opportunity");
                     ("data", VObj [("id", VNum 13)])])
              (VObj [("id", VNum 13)]) eq_refl eq_refl) as [Hopp _].
  exact (Hopp eq_refl).
Defined.

Lemma fetchData_agree_on_success_witness :
  state_changes (IndexJs.fetchData "secret" (serving (VArr [])))
  = [SetOpportunitiesTo (VArr []); SetTradesTo (VArr []);
     SetMarketDataTo (VArr [])] ∧
  state_changes (PageJsx.fetchData "secret" (serving (VArr [])))
  = state_changes (IndexJs.fetchData "secret" (serving (VArr []))) ∧
  requests (PageJsx.fetchData "secret" (serving (VArr [])))
  = requests (IndexJs.fetchData "secret" (serving (VArr []))).
Proof.
  apply (fetchData_agree_on_success "secret" (serving (VArr [])));
    [discriminate | reflexivity ..].
Defined.

Lemma fetchData_key_refused_witness :
  state_changes (IndexJs.fetchData "wrong" denying) = [] ∧
  state_changes (PageJsx.fetchData "wrong" denying)
  = [SetOpportunitiesTo (VArr []); SetTradesTo (VArr []);
     SetMarketDataTo (VArr [])].
Proof.
  apply (fetchData_key_refused "wrong" denying); [discriminate|].
  intros q. by exists None.
Defined.

Lemma fetchData_page_all_or_nothing_witness :
  state_changes (PageJsx.fetchData "secret" (trades_down (VArr []))) = [].
Proof.
  rewrite (fetchData_page_all_or_nothing "secret" (trades_down (VArr [])));
    [reflexivity | discriminate |].
  right. left. left. reflexivity.
Defined.

Lemma fetchData_index_stops_at_failure_witness :
  state_changes (IndexJs.fetchData "secret" (trades_down (VArr [])))
  = [SetOpportunitiesTo (VArr [])] ∧
  length (requests (IndexJs.fetchData "secret" (trades_down (VArr []))))
  = 2%nat.
Proof.
  rewrite (fetchData_index_stops_at_failure "secret" (trades_down (VArr []))
             (VArr [])); [split; reflexivity | discriminate | reflexivity |].
  left. reflexivity.
Defined.

(** The sixth exchange is drawn in the colour of the first. *)
Lemma getColor_cycles_witness :
  is_Some (getColor 5 "1") ∧
  (getColor 5 "1" = getColor 0 "1" ↔ 5 `mod` 5 = 0 `mod` 5).
Proof. apply (getColor_cycles 5 0 "1"); lia. Defined.

End DashboardFacts.

(** * Properties of the detector *)

Section DetectorFacts.
Import Detector.

Lemma best_In (l : list Opportunity) (o : Opportunity) :
  best l = Some o → In o l.
Proof.
  revert o. induction l as [|c rest IH]; intros o; simpl; [discriminate|].
  destruct (best rest) as [r|].
  - intros [= <-]. destruct (better r c); [right; by apply IH | by left].
  - intros [= <-]. by left.
Qed.

Lemma candidates_In (cfg : Config) (now : Z) (active : list PriceQuote)
    (o : Opportunity) :
  In o (candidates cfg now active) →
  ∃ qb qs, In qb active ∧ In qs active ∧ venue qb ≠ venue qs ∧
           o = candidate cfg now qb qs.
Proof.
  unfold candidates. intros Hin.
  apply in_flat_map in Hin as (qb & Hqb & Hin).
  apply in_flat_map in Hin as (qs & Hqs & Hin).
  destruct (String.eqb (venue qb) (venue qs)) eqn:Hv; [done|].
  destruct Hin as [<-|[]]. exists qb, qs.
  apply String.eqb_neq in Hv. auto.
Qed.

(** C7. Whatever the detector emits clears both bounds: its estimated
    profit is positive and its profit in basis points is at least the
    threshold.  The figures are the ones computed from two active quotes of
    distinct venues, and a candidate below either bound is not what is
    emitted. *)
Theorem detect_threshold (cfg : Config) (in_flight : string → bool) (now : Z)
    (quotes : list PriceQuote) (o : Opportunity) :
  detect cfg in_flight now quotes = Some o →
  0 < estimatedProfit o ∧ minThresholdBps cfg ≤ estimatedProfitBps o ∧
  (∃ qb qs, In qb (activeQuotes cfg now quotes) ∧
            In qs (activeQuotes cfg now quotes) ∧
            venue qb ≠ venue qs ∧ o = candidate cfg now qb qs) ∧
  (∀ c, estimatedProfit c ≤ 0 ∨ estimatedProfitBps c < minThresholdBps cfg →
        c ≠ o).
Proof.
  unfold detect. intros Hdet.
  destruct (best _) as [w|] eqn:Hbest; [|discriminate].
  destruct (in_flight (fingerprint w)); [discriminate|].
  injection Hdet as ->.
  apply best_In, filter_In in Hbest as [Hcand Hq].
  unfold qualifies in Hq. apply andb_prop in Hq as [Hp Hb].
  assert (0 < estimatedProfit o) by lia.
  assert (minThresholdBps cfg ≤ estimatedProfitBps o) by lia.
  repeat split; [done | done | by apply candidates_In |].
  intros c Hc ->. lia.
Qed.

(** Scenario A: buy on V1 at 101, sell on V2 at 103, gross spread 2. *)
Lemma detect_threshold_witness :
  ∃ o, detect scenario_config (λ _, false) 1000 scenario_quotes = Some o ∧
       buyVenue o = "V1" ∧ sellVenue o = "V2" ∧
       sellPrice o - buyPrice o = 2 ∧
       0 < estimatedProfit o ∧
       minThresholdBps scenario_config ≤ estimatedProfitBps o.
Proof.
  eexists. split; [reflexivity|].
  destruct (detect_threshold scenario_config (λ _, false) 1000 scenario_quotes
              _ eq_refl) as (Hp & Hb & _).
  split; [reflexivity|]. split; [reflexivity|]. split; [reflexivity|].
  split; [exact Hp | exact Hb].
Defined.

End DetectorFacts.

(** * Properties of the orchestrator *)

Section OrchestratorFacts.
Import Orchestrator.

Lemma filter_map_length {A} (P : A → bool) (g : A → A) (l : list A) :
  (∀ e, P (g e) = true → P e = true) →
  (length (List.filter P (map g l)) ≤ length (List.filter P l))%nat.
Proof.
  intros Hg. induction l as [|e l IH]; simpl; [done|].
  destruct (P (g e)) eqn:Hge.
  - rewrite (Hg e Hge). simpl. lia.
  - destruct (P e); simpl; lia.
Qed.

Lemma has_live_false_count (fp : string) (s : list TradeExecution) :
  has_live fp s = false → live_count fp s = 0%nat.
Proof.
  unfold has_live, live_count. induction s as [|e s IH]; simpl; [done|].
  destruct (live fp e); simpl; [discriminate|]. exact IH.
Qed.

Lemma live_count_app (fp : string) (s t : list TradeExecution) :
  live_count fp (s ++ t) = (live_count fp s + live_count fp t)%nat.
Proof. unfold live_count. by rewrite List.filter_app, length_app. Qed.

Lemma submit_live_count (o : Detector.Opportunity) (now : Z) (fp : string)
    (s : list TradeExecution) :
  (live_count fp s ≤ 1)%nat → (live_count fp (submit o now s) ≤ 1)%nat.
Proof.
  intros Hle. unfold submit.
  destruct (has_live (Detector.fingerprint o) s) eqn:Hlive; [done|].
  rewrite live_count_app. unfold live_count at 2. simpl. unfold live. simpl.
  destruct (String.eqb (Detector.fingerprint o) fp) eqn:Hfp; simpl; [|lia].
  apply String.eqb_eq in Hfp. subst fp.
  rewrite (has_live_false_count _ _ Hlive). lia.
Qed.

Lemma advance_live_count (fp target : string) (from : Status)
    (f : TradeExecution → TradeExecution) (s : list TradeExecution) :
  (∀ e, opportunityFingerprint (f e) = opportunityFingerprint e) →
  (live_count fp (advance target from f s) ≤ live_count fp s)%nat.
Proof.
  intros Hf. apply filter_map_length. intros e.
  destruct (live target e && bool_decide (status e = from)) eqn:Hc; [|done].
  apply andb_prop in Hc as [Hl _]. unfold live in *.
  rewrite Hf. intros Hfe. apply andb_prop in Hfe as [-> _].
  apply andb_prop in Hl as [_ ->]. done.
Qed.

Lemma step_live_count (a : Action) (fp : string) (s : list TradeExecution) :
  (live_count fp s ≤ 1)%nat → (live_count fp (step s a) ≤ 1)%nat.
Proof.
  intros Hle. destruct a; simpl.
  - by apply submit_live_count.
  - etrans; [apply advance_live_count|]; done.
  - etrans; [apply advance_live_count|]; done.
  - etrans; [apply advance_live_count|]; done.
  - etrans; [apply advance_live_count|]; done.
Qed.

Lemma run_live_count (actions : list Action) (fp : string)
    (s : list TradeExecution) :
  (live_count fp s ≤ 1)%nat → (live_count fp (run actions s) ≤ 1)%nat.
Proof.
  revert s. induction actions as [|a actions IH]; intros s Hle; [done|].
  apply IH. by apply step_live_count.
Qed.

Lemma submit_rejected (o : Detector.Opportunity) (now : Z)
    (s : list TradeExecution) :
  has_live (Detector.fingerprint o) s = true → submit o now s = s.
Proof. intros Hlive. unfold submit. by rewrite Hlive. Qed.

Lemma submit_accepted (o : Detector.Opportunity) (now : Z)
    (s : list TradeExecution) :
  has_live (Detector.fingerprint o) s = false →
  submit o now s
  = s ++ [mkExecution (Detector.fingerprint o) PENDING None None None now None]
  ∧ has_live (Detector.fingerprint o) (submit o now s) = true.
Proof.
  intros Hlive. unfold submit. rewrite Hlive. split; [done|].
  unfold has_live. rewrite existsb_app. simpl. unfold live. simpl.
  rewrite String.eqb_refl. simpl. apply orb_true_r.
Qed.

Lemma run_duplicates_rejected (fp : string)
    (dups : list (Detector.Opportunity * Z)) (s : list TradeExecution) :
  Forall (λ d, Detector.fingerprint d.1 = fp) dups →
  has_live fp s = true →
  run (map (λ d, Submit d.1 d.2) dups) s = s.
Proof.
  intros Hall Hlive. induction Hall as [|d dups Hd _ IH]; [done|].
  unfold run in *. simpl. rewrite submit_rejected; [exact IH | by rewrite Hd].
Qed.

Lemma advance_not_live (fp : string) (from : Status)
    (f : TradeExecution → TradeExecution) (s : list TradeExecution) :
  has_live fp s = false → advance fp from f s = s.
Proof.
  unfold has_live, advance. induction s as [|e s IH]; simpl; [done|].
  intros Hnone. apply orb_false_elim in Hnone as [He Hs].
  rewrite He. simpl. by rewrite IH.
Qed.

Lemma has_live_false_submitted (fp : string) (s : list TradeExecution) :
  has_live fp s = false → submitted_count fp s = 0%nat.
Proof.
  unfold has_live, submitted_count. induction s as [|e s IH]; simpl; [done|].
  intros Hnone. apply orb_false_elim in Hnone as [He Hs].
  destruct (String.eqb (opportunityFingerprint e) fp) eqn:Hfp; simpl;
    [|by apply IH].
  destruct (bool_decide (status e = SUBMITTED)) eqn:Hst; [|by apply IH].
  apply bool_decide_eq_true in Hst. unfold live in He.
  rewrite Hfp, Hst in He. discriminate.
Qed.

(** C8. In every state the orchestrator reaches, each fingerprint has at
    most one non-terminal execution; [submit] of an opportunity whose
    fingerprint has one changes nothing; and of duplicates submitted in any
    order for a fingerprint that has none, one is accepted, so that once it
    is sent exactly one execution of the fingerprint is [SUBMITTED]. *)
Theorem at_most_one_live_execution (actions : list Action) :
  let s := run actions [] in
  (∀ fp, (live_count fp s ≤ 1)%nat) ∧
  (∀ o now, has_live (Detector.fingerprint o) s = true →
            step s (Submit o now) = s) ∧
  (∀ fp dups tx,
     dups ≠ [] →
     Forall (λ d, Detector.fingerprint d.1 = fp) dups →
     has_live fp s = false →
     let s' := run (map (λ d, Submit d.1 d.2) dups) s in
     length s' = S (length s) ∧
     (live_count fp s' = 1)%nat ∧
     submitted_count fp (step s' (Sent fp tx)) = 1%nat).
Proof.
  intros s. split; [|split].
  - intros fp. apply run_live_count. unfold live_count. simpl. lia.
  - intros o now. apply submit_rejected.
  - intros fp dups tx Hne Hall Hnone s'.
    destruct dups as [|[o now] dups]; [done|].
    apply Forall_cons_1 in Hall as [Ho Hall]. simpl in Ho. subst fp.
    destruct (submit_accepted o now s Hnone) as [Hs1 Hlive1].
    assert (Hs' : s' = s ++ [mkExecution (Detector.fingerprint o) PENDING None
                               None None now None]).
    { subst s'. unfold run at 1. cbn [map foldl step fst snd].
      fold (run (map (λ d, Submit d.1 d.2) dups) (submit o now s)).
      by rewrite (run_duplicates_rejected _ _ _ Hall Hlive1). }
    rewrite Hs'. split; [|split].
    + rewrite length_app. simpl. lia.
    + rewrite live_count_app, (has_live_false_count _ _ Hnone).
      unfold live_count, live. simpl. by rewrite String.eqb_refl.
    + cbn [step]. unfold advance. rewrite map_app.
      fold (advance (Detector.fingerprint o) PENDING
              (λ e, mkExecution (opportunityFingerprint e) SUBMITTED (Some tx)
                      None None (startedAt e) None) s).
      rewrite (advance_not_live _ _ _ _ Hnone).
      unfold submitted_count. rewrite List.filter_app, length_app.
      fold (submitted_count (Detector.fingerprint o) s).
      rewrite (has_live_false_submitted _ _ Hnone).
      simpl. unfold live. simpl. rewrite String.eqb_refl. simpl.
      by rewrite String.eqb_refl.
Qed.

(** Three copies of one opportunity arrive before the first is sent. *)
Lemma at_most_one_live_execution_witness :
  let o := Detector.candidate Detector.scenario_config 1000
             (Detector.mkQuote "V1" "X" 100 101 10 1000)
             (Detector.mkQuote "V2" "X" 103 104 10 1000) in
  let s' := run [Submit o 1000; Submit o 1001; Submit o 1002] [] in
  length s' = 1%nat ∧
  submitted_count (Detector.fingerprint o) (step s' (Sent "XV1V2" "0xabc"))
  = 1%nat.
Proof.
  intros o.
  destruct (at_most_one_live_execution []) as (_ & _ & Hdup).
  destruct (Hdup (Detector.fingerprint o) [(o, 1000); (o, 1001); (o, 1002)]
              "0xabc") as (Hlen & _ & Hsub).
  - discriminate.
  - repeat constructor.
  - reflexivity.
  - split; [exact Hlen | exact Hsub].
Defined.

End OrchestratorFacts.

